(** * mcpid.lookup: particle-code lookup, embedded in Rocq

    A shallow embedding of [src/mcpid/lookup.py]: the fraction parser
    [frac] and the query method [PdgRecords.properties], together with
    the parts of the Python standard library, numpy and pandas they call.

    Python values are a small inductive type, exceptions are the [Raise]
    branch of [outcome], and the method runs in a state-and-exception
    monad whose state holds the service's table, the warnings handed to
    [warnings.warn] and a log of the index lookups made on the table. *)

From Stdlib Require Import ZArith QArith String Ascii List Bool Lia.
From Stdlib Require Import Floats.SpecFloat.
Import ListNotations.

Open Scope string_scope.
Open Scope list_scope.
Open Scope Z_scope.

(* ================================================================= *)
(** ** Python values, exceptions and outcomes *)

(** A label of a pandas axis: an integer (row index) or a string
    (column name). *)
Inductive label : Type :=
| LInt (z : Z)
| LStr (s : string).

(** The exceptions the embedded code and its library calls can raise.
    [KeyError] carries the labels pandas reports as missing. *)
Inductive exn : Type :=
| ValueError
| ZeroDivisionError
| OverflowError
| KeyError (missing : list label)
| IndexError.

Inductive outcome (A : Type) : Type :=
| Return (a : A)
| Raise (e : exn).
Arguments Return {A} a.
Arguments Raise {A} e.

Definition obind {A B} (o : outcome A) (k : A -> outcome B) : outcome B :=
  match o with
  | Return a => k a
  | Raise e => Raise e
  end.

(** A Python float is an IEEE-754 binary64 number, a [fractions.Fraction]
    a rational in lowest terms. *)
Inductive value : Type :=
| VNone
| VBool (b : bool)
| VInt (z : Z)
| VFloat (f : spec_float)
| VFraction (q : Q)
| VStr (s : string).

Definition prec : Z := 53.
Definition emax : Z := 1024.

(** [np.nan] *)
Definition np_nan : value := VFloat S754_nan.

(** The float [0.5] is [2^52 * 2^-53], the float [0.0] is positive zero. *)
Definition float_half : spec_float := S754_finite false 4503599627370496 (-53).
Definition float_zero : spec_float := S754_zero false.

(** The rational a float stands for, when it is finite. *)
Definition float_value (f : spec_float) : option Q :=
  match f with
  | S754_zero _ => Some (0 # 1)
  | S754_finite sign m e =>
      Some (Qred (inject_Z (if sign then Zneg m else Zpos m) * Qpower (2 # 1) e))
  | _ => None
  end.

(* ================================================================= *)
(** ** [fractions.Fraction] built from a string

    The constructor matches the whole string against the pattern
    [_RATIONAL_FORMAT], compiled with [re.IGNORECASE].  In order, the
    pattern reads: optional whitespace; the group [sign], an optional
    [-] or [+]; a lookahead for a digit, or a dot and a digit; the group
    [num], a possibly empty run of digits; then either an optional [/]
    followed by the group [denom], one digit or more, or else an
    optional dot followed by the group [decimal], a possibly empty run
    of digits, and an optional [E] followed by the group [exp], an
    optionally signed run of one digit or more; optional whitespace; the
    end of the string.

    No match raises [ValueError]; a zero denominator raises
    [ZeroDivisionError]; otherwise the fraction is reduced.  The pattern
    is the one of CPython 3.8 to 3.10, and strings are read as sequences
    of ASCII characters: what the model accepts the library accepts,
    with the same value.  The library accepts more, which the model
    rejects: digits and whitespace outside ASCII, from CPython 3.11
    underscores between digits, and from 3.12 whitespace around the
    slash. *)

Module Fractions.

Definition is_digit (c : ascii) : bool :=
  let n := nat_of_ascii c in (48 <=? n)%nat && (n <=? 57)%nat.

(** [\s] on a [str] pattern: the characters for which [str.isspace]
    holds, here tab, newline, vertical tab, form feed, carriage return,
    the four separators 0x1c-0x1f and the space. *)
Definition is_space (c : ascii) : bool :=
  let n := nat_of_ascii c in
  ((9 <=? n)%nat && (n <=? 13)%nat)
  || ((28 <=? n)%nat && (n <=? 32)%nat).

Definition is_sign (c : ascii) : bool :=
  Ascii.eqb c "-" || Ascii.eqb c "+".

Definition is_E (c : ascii) : bool :=
  Ascii.eqb c "E" || Ascii.eqb c "e".

(** The longest prefix of characters satisfying [p], and the rest: a
    greedy repetition of [p]. *)
Fixpoint span (p : ascii -> bool) (l : list ascii) : list ascii * list ascii :=
  match l with
  | c :: r =>
      if p c then let '(run, rest) := span p r in (c :: run, rest)
      else ([], l)
  | [] => ([], [])
  end.

(** Optional whitespace, then the end of the string. *)
Definition at_end (l : list ascii) : bool :=
  match snd (span is_space l) with
  | [] => true
  | _ => false
  end.

(** The lookahead: a digit, or a dot and a digit. *)
Definition lookahead (l : list ascii) : bool :=
  match l with
  | c :: r =>
      is_digit c
      || (Ascii.eqb c "." && match r with d :: _ => is_digit d | [] => false end)
  | [] => false
  end.

(** The named groups of a match; [None] is a group that took no part. *)
Record groups : Type := {
  g_sign : list ascii;
  g_num : list ascii;
  g_denom : option (list ascii);
  g_decimal : option (list ascii);
  g_exp : option (list ascii)
}.

(** The optional sign: the text of [sign] and what follows it. *)
Definition match_sign (l : list ascii) : list ascii * list ascii :=
  match l with
  | c :: r => if is_sign c then ([c], r) else ([], l)
  | [] => ([], l)
  end.

(** The optional fractional part: the text of [decimal] after the dot,
    and what follows it.  Without a dot the group takes no part. *)
Definition match_decimal (l : list ascii) : option (list ascii) * list ascii :=
  match l with
  | c :: r =>
      if Ascii.eqb c "." then
        let '(ds, r') := span is_digit r in (Some ds, r')
      else (None, l)
  | [] => (None, l)
  end.

(** The optional exponent: the text of [exp] and what follows it.
    When no exponent can be read the group takes no part and nothing is
    consumed. *)
Definition match_exp (l : list ascii) : option (list ascii) * list ascii :=
  match l with
  | e :: r =>
      if is_E e then
        let '(sg, r1) := match_sign r in
        let '(ds, r2) := span is_digit r1 in
        match ds with
        | [] => (None, l)
        | _ => (Some (sg ++ ds), r2)
        end
      else (None, l)
  | [] => (None, l)
  end.

(** The first alternative after [num], entered on a slash: the
    denominator, then the end. *)
Definition match_fraction (sg num : list ascii) (l : list ascii)
  : option groups :=
  let '(den, r) := span is_digit l in
  match den with
  | [] => None
  | _ =>
      if at_end r then
        Some {| g_sign := sg; g_num := num; g_denom := Some den;
                g_decimal := None; g_exp := None |}
      else None
  end.

(** The second alternative after [num]: fractional part and exponent,
    both optional, then the end. *)
Definition match_decimal_exp (sg num : list ascii) (l : list ascii)
  : option groups :=
  let '(dec, l1) := match_decimal l in
  let '(ex, l2) := match_exp l1 in
  if at_end l2 then
    Some {| g_sign := sg; g_num := num; g_denom := None;
            g_decimal := dec; g_exp := ex |}
  else None.

(** [_RATIONAL_FORMAT.match].  Every repetition is followed by something
    the repeated class excludes, so the backtracking matcher has at most
    one way to succeed, which is the greedy one followed here; after a
    slash the second alternative cannot succeed where the first has
    failed. *)
Definition rational_format (s : list ascii) : option groups :=
  let s0 := snd (span is_space s) in
  let '(sg, s1) := match_sign s0 in
  if lookahead s1 then
    let '(num, s2) := span is_digit s1 in
    match s2 with
    | c :: r =>
        if Ascii.eqb c "/" then match_fraction sg num r
        else match_decimal_exp sg num s2
    | [] => match_decimal_exp sg num s2
    end
  else None.

(** The pattern once more, as the language it denotes: [matches s m]
    holds when [s] splits into the parts the pattern names, with the
    groups [m].  [rational_format] is proved below to compute it. *)
Definition all (p : ascii -> bool) (l : list ascii) : Prop :=
  Forall (fun c => p c = true) l.

(** Where a greedy run stops. *)
Definition stops (p : ascii -> bool) (l : list ascii) : Prop :=
  match l with c :: _ => p c = false | [] => True end.

Definition opt_sign (l : list ascii) : Prop :=
  l = [] \/ l = ["-"%char] \/ l = ["+"%char].

Inductive dec_match : list ascii -> option (list ascii) -> Prop :=
| dec_absent : dec_match [] None
| dec_present ds : all is_digit ds -> dec_match ("."%char :: ds) (Some ds).

Inductive exp_match : list ascii -> option (list ascii) -> Prop :=
| exp_absent : exp_match [] None
| exp_present e sg ds :
    is_E e = true -> opt_sign sg -> ds <> [] -> all is_digit ds ->
    exp_match (e :: sg ++ ds) (Some (sg ++ ds)).

Inductive tail_match (m : groups) : list ascii -> Prop :=
| tail_denom den :
    den <> [] -> all is_digit den ->
    g_denom m = Some den -> g_decimal m = None -> g_exp m = None ->
    tail_match m ("/"%char :: den)
| tail_decimal dpart epart :
    g_denom m = None ->
    dec_match dpart (g_decimal m) -> exp_match epart (g_exp m) ->
    tail_match m (dpart ++ epart).

Definition matches (s : list ascii) (m : groups) : Prop :=
  exists ws1 tl ws2,
    s = ws1 ++ g_sign m ++ g_num m ++ tl ++ ws2
    /\ all is_space ws1
    /\ opt_sign (g_sign m)
    /\ lookahead (g_num m ++ tl ++ ws2) = true
    /\ all is_digit (g_num m)
    /\ tail_match m tl
    /\ all is_space ws2.

(** [int] on a run of decimal digits. *)
Definition int_of_digits (l : list ascii) : Z :=
  fold_left (fun acc c => 10 * acc + (Z.of_nat (nat_of_ascii c) - 48)) l 0.

(** [int] on an optionally signed run of decimal digits. *)
Definition int_of_signed (l : list ascii) : Z :=
  match l with
  | c :: r =>
      if Ascii.eqb c "-" then - int_of_digits r
      else if Ascii.eqb c "+" then int_of_digits r
      else int_of_digits l
  | [] => 0
  end.

(** Python's truthiness of a group: matched and not empty. *)
Definition nonempty (g : option (list ascii)) : option (list ascii) :=
  match g with
  | Some (c :: r) => Some (c :: r)
  | _ => None
  end.

(** Numerator and denominator as [Fraction.__new__] computes them from
    the groups, before the zero test and the reduction. *)
Definition ratio_of_groups (m : groups) : Z * Z :=
  let numerator := int_of_digits (g_num m) in
  let '(numerator, denominator) :=
    match nonempty (g_denom m) with
    | Some denom => (numerator, int_of_digits denom)
    | None =>
        let '(numerator, denominator) :=
          match nonempty (g_decimal m) with
          | Some decimal =>
              let scale := 10 ^ Z.of_nat (List.length decimal) in
              (numerator * scale + int_of_digits decimal, 1 * scale)
          | None => (numerator, 1)
          end in
        match nonempty (g_exp m) with
        | Some exp =>
            let exp := int_of_signed exp in
            if 0 <=? exp then (numerator * 10 ^ exp, denominator)
            else (numerator, denominator * 10 ^ (- exp))
        | None => (numerator, denominator)
        end
    end in
  if list_eq_dec ascii_dec (g_sign m) ["-"%char]
  then (- numerator, denominator)
  else (numerator, denominator).

(** [Fraction(numerator, denominator)] for integers: the zero test, then
    the reduction to lowest terms with a positive denominator. *)
Definition normalize (numerator denominator : Z) : outcome Q :=
  if denominator =? 0 then Raise ZeroDivisionError
  else
    let g := Z.gcd numerator denominator in
    let g := if denominator <? 0 then - g else g in
    Return (Qmake (numerator / g) (Z.to_pos (denominator / g))).

(** [Fraction(s)] for a string [s]. *)
Definition Fraction (s : string) : outcome Q :=
  match rational_format (list_ascii_of_string s) with
  | None => Raise ValueError
  | Some m => let '(n, d) := ratio_of_groups m in normalize n d
  end.

(** [float(q)]: the true division [numerator / denominator] of two
    Python integers, correctly rounded to nearest-even, with
    [OverflowError] when the quotient is too large for a float. *)
Definition to_float (q : Q) : outcome spec_float :=
  match Qnum q with
  | Z0 => Return float_zero
  | Zpos n =>
      match SFdiv prec emax (S754_finite false n 0) (S754_finite false (Qden q) 0) with
      | S754_infinity _ => Raise OverflowError
      | f => Return f
      end
  | Zneg n =>
      match SFdiv prec emax (S754_finite true n 0) (S754_finite false (Qden q) 0) with
      | S754_infinity _ => Raise OverflowError
      | f => Return f
      end
  end.

End Fractions.

(* ================================================================= *)
(** ** [frac] *)

(** The [cast_frac] closure chosen by [obj_mode]: [Fraction] itself, or
    [lambda inp: float(Fraction(inp))]. *)
Definition cast_frac (obj_mode : bool) (inp : string) : outcome value :=
  if obj_mode then
    obind (Fractions.Fraction inp) (fun q => Return (VFraction q))
  else
    obind (Fractions.Fraction inp) (fun q =>
    obind (Fractions.to_float q) (fun f => Return (VFloat f))).

(** [frac(num_str, obj_mode)].  Only [ValueError] is caught; in the
    handler neither branch of the [if]/[elif] may be taken, and the
    function then falls off its end and returns [None]. *)
Definition frac (num_str : string) (obj_mode : bool) : outcome value :=
  match cast_frac obj_mode num_str with
  | Raise ValueError =>
      if String.eqb num_str "" then cast_frac obj_mode "0/1"
      else if String.eqb num_str "?" then Return np_nan
      else Return VNone
  | r => r
  end.

(* ================================================================= *)
(** ** numpy: [unique], [any] and indexing by an integer array *)

Module Numpy.

(** [x] put at its place in an increasing list without repeats. *)
Fixpoint insert_sorted (x : Z) (l : list Z) : list Z :=
  match l with
  | [] => [x]
  | y :: r =>
      if x <? y then x :: l
      else if x =? y then l
      else y :: insert_sorted x r
  end.

(** The sorted distinct elements of [ar]. *)
Definition sorted_unique (ar : list Z) : list Z :=
  fold_right insert_sorted [] ar.

(** The position of the first [x] in [l] ([length l] when absent). *)
Fixpoint index_of (x : Z) (l : list Z) : nat :=
  match l with
  | [] => O
  | y :: r => if x =? y then O else S (index_of x r)
  end.

(** [np.unique(ar, return_inverse=True)] on a one-dimensional integer
    sequence: the sorted distinct elements, and for every position of
    [ar] the index of its element among them. *)
Definition unique (ar : list Z) : list Z * list nat :=
  let u := sorted_unique ar in
  (u, map (fun x => index_of x u) ar).

(** Truth value of an element, as [np.any] tests it. *)
Definition truthy (v : value) : bool :=
  match v with
  | VNone => false
  | VBool b => b
  | VInt z => negb (z =? 0)
  | VFloat (S754_zero _) => false
  | VFloat _ => true
  | VFraction q => negb (Qnum q =? 0)
  | VStr s => negb (String.eqb s "")
  end.

(** [np.any] *)
Definition any (a : list value) : bool := existsb truthy a.

(** [a[idxs]] for an array of non-negative integers [idxs]: one element
    per index, [IndexError] when an index is out of bounds. *)
Fixpoint take {A : Type} (a : list A) (idxs : list nat) : outcome (list A) :=
  match idxs with
  | [] => Return []
  | i :: r =>
      match nth_error a i with
      | Some x => obind (take a r) (fun xs => Return (x :: xs))
      | None => Raise IndexError
      end
  end.

End Numpy.

(* ================================================================= *)
(** ** pandas: a [DataFrame] with an integer index *)

Module Pandas.

(** A frame is rectangular: every row holds one cell per column, next to
    its index label.  Neither index labels nor column labels need be
    distinct. *)
Record DataFrame : Type := {
  index_name : string;
  columns : list string;
  rows : list (Z * list value)
}.

Definition index (df : DataFrame) : list Z := map fst (rows df).

Definition mem_Z (x : Z) (l : list Z) : bool := existsb (Z.eqb x) l.
Definition mem_str (x : string) (l : list string) : bool :=
  existsb (String.eqb x) l.

(** The rows labelled [i], in table order. *)
Definition rows_at (df : DataFrame) (i : Z) : list (Z * list value) :=
  filter (fun r => fst r =? i) (rows df).

(** [df.loc[ids]] for a list-like [ids] (pandas 1.0 and later): the rows
    of every requested label, in the order of the request; [KeyError]
    naming the labels that are not in the index when there are any. *)
Definition loc (df : DataFrame) (ids : list Z) : outcome DataFrame :=
  match filter (fun i => negb (mem_Z i (index df))) ids with
  | [] =>
      Return {| index_name := index_name df;
                columns := columns df;
                rows := flat_map (rows_at df) ids |}
  | missing => Raise (KeyError (map LInt missing))
  end.

(** The positions at which column label [p] occurs, counted from [k]. *)
Fixpoint positions_from (k : nat) (p : string) (cols : list string) : list nat :=
  match cols with
  | [] => []
  | c :: r =>
      if String.eqb c p then k :: positions_from (S k) p r
      else positions_from (S k) p r
  end.

Definition positions (p : string) (cols : list string) : list nat :=
  positions_from O p cols.

(** The first position of a column label. *)
Fixpoint column_index (p : string) (cols : list string) : nat :=
  match cols with
  | [] => O
  | c :: r => if String.eqb c p then O else S (column_index p r)
  end.

(** The cell at position [j] of a row; the default is never read on a
    rectangular frame. *)
Definition cell (cells : list value) (j : nat) : value := nth j cells np_nan.

(** [df[key]] for a single column label: the values of that column. *)
Definition getitem (df : DataFrame) (key : string) : outcome (list value) :=
  match positions key (columns df) with
  | [] => Raise (KeyError [LStr key])
  | pos => Return (flat_map (fun r => map (cell (snd r)) pos) (rows df))
  end.

(** [df[key]] for a list of column labels: the frame of the requested
    columns in the order of the request, a label repeated in the request
    giving a repeated column; [KeyError] naming the labels that are not
    columns when there are any. *)
Definition getitems (df : DataFrame) (key : list string) : outcome DataFrame :=
  match filter (fun p => negb (mem_str p (columns df))) key with
  | [] =>
      let pos := flat_map (fun p => positions p (columns df)) key in
      Return {| index_name := index_name df;
                columns := flat_map (fun p => map (fun _ => p)
                                               (positions p (columns df))) key;
                rows := map (fun r => (fst r, map (cell (snd r)) pos)) (rows df) |}
  | missing => Raise (KeyError (map LStr missing))
  end.

(** A numpy array with a structured dtype: field names and one tuple of
    cells per element. *)
Record recarray : Type := {
  names : list string;
  records : list (list value)
}.

(** Whether the strings of a list are pairwise different. *)
Fixpoint distinct (l : list string) : bool :=
  match l with
  | [] => true
  | x :: r => negb (mem_str x r) && distinct r
  end.

(** [df.to_records()]: the index becomes the first field, under the
    name of the index.  A structured dtype cannot hold two fields of one
    name: numpy raises [ValueError] when it is asked to. *)
Definition to_records (df : DataFrame) : outcome recarray :=
  let fields := index_name df :: columns df in
  if distinct fields then
    Return {| names := fields;
              records := map (fun r => VInt (fst r) :: snd r) (rows df) |}
  else Raise ValueError.

End Pandas.

(* ================================================================= *)
(** ** [numpy.lib.recfunctions] *)

Module Rfn.

(** The elements of [l] at the positions where [mask] holds. *)
Fixpoint compress {A : Type} (mask : list bool) (l : list A) : list A :=
  match mask, l with
  | b :: mask', x :: l' => if b then x :: compress mask' l' else compress mask' l'
  | _, _ => []
  end.

(** [rfn.drop_fields(base, drop_name)]: the array without the fields
    named [drop_name]. *)
Definition drop_fields (base : Pandas.recarray) (drop_name : string)
  : Pandas.recarray :=
  let keep := map (fun n => negb (String.eqb n drop_name)) (Pandas.names base) in
  {| Pandas.names := compress keep (Pandas.names base);
     Pandas.records := map (compress keep) (Pandas.records base) |}.

End Rfn.

(* ================================================================= *)
(** ** The service and its monad *)

(** The state of a [PdgRecords] instance and of what it acts on:
    [lookup] is the attribute [self.__lookup], the table indexed by
    ["id"]; [warned] collects the messages given to [warnings.warn];
    [lookups] records, for every evaluation of [self.__lookup.loc[...]],
    the labels looked up in the index of the table. *)
Record service : Type := {
  lookup : Pandas.DataFrame;
  warned : list string;
  lookups : list (list Z)
}.

(** A computation reads and updates the state and returns or raises. *)
Definition M (A : Type) : Type := service -> outcome A * service.

Definition ret {A} (a : A) : M A := fun s => (Return a, s).

Definition bind {A B} (m : M A) (k : A -> M B) : M B :=
  fun s =>
    match m s with
    | (Return a, s') => k a s'
    | (Raise e, s') => (Raise e, s')
    end.

Definition lift {A} (o : outcome A) : M A := fun s => (o, s).

Notation "x <- m ;; k" := (bind m (fun x => k))
  (at level 61, m at next level, right associativity).
Notation "m ;;; k" := (bind m (fun _ => k))
  (at level 61, right associativity).

(** [self.__lookup.loc[ids]]: one pass of [ids] against the index of
    the table, entered in the log whether it succeeds or raises. *)
Definition lookup_loc (ids : list Z) : M Pandas.DataFrame :=
  fun s =>
    (Pandas.loc (lookup s) ids,
     {| lookup := lookup s; warned := warned s;
        lookups := lookups s ++ [ids] |}).

(** [warnings.warn(msg)]: the message goes to the warning channel and
    the call returns, as it does under the default warning filters. *)
Definition warn (msg : string) : M unit :=
  fun s =>
    (Return tt,
     {| lookup := lookup s; warned := warned s ++ [msg];
        lookups := lookups s |}).

(* ================================================================= *)
(** ** [PdgRecords.properties] *)

Definition valid_pythia : list string := ["name"; "charge"; "mass"; "width"].

(** [valid_pythia.issuperset(props)] *)
Definition issuperset (set : list string) (props : list string) : bool :=
  forallb (fun p => Pandas.mem_str p set) props.

Definition pythia_message : string :=
  "Some PDG codes in the query are missing from the records compiled by Scikit-HEP's Particle library. This is usually because the particles are so unstable that they are unobserved or unobservable. mcpid has filled in the gaps using Pythia's records, but only name, charge, mass, and width data are available. Please ensure, if you wish to access other properties, that you explicitly handle missing data.".

Definition properties (pdgs : list Z) (props : list string)
  : M Pandas.recarray :=
  let '(pdg_ids, pdg_inv_idxs) := Numpy.unique pdgs in
  sel <- lookup_loc pdg_ids ;;
  flags <- lift (Pandas.getitem sel "pythia") ;;
  let contains_pythia := Numpy.any flags in
  (if contains_pythia && negb (issuperset valid_pythia props)
   then warn pythia_message
   else ret tt) ;;;
  sel <- lookup_loc pdg_ids ;;
  uniq_data <- lift (Pandas.getitems sel props) ;;
  uniq_data <- lift (Pandas.to_records uniq_data) ;;
  let uniq_data := Rfn.drop_fields uniq_data "id" in
  data <- lift (Numpy.take (Pandas.records uniq_data) pdg_inv_idxs) ;;
  ret {| Pandas.names := Pandas.names uniq_data; Pandas.records := data |}.

(** A service as [PdgRecords()] leaves it: nothing warned, nothing
    looked up. *)
Definition fresh (tbl : Pandas.DataFrame) : service :=
  {| lookup := tbl; warned := []; lookups := [] |}.

(** A small table in the layout of the bundled data file: photon,
    electron, proton from the primary source, and one record that only
    the fallback source has. *)
Definition sample_table : Pandas.DataFrame :=
  {| Pandas.index_name := "id";
     Pandas.columns := ["name"; "charge"; "mass"; "quarks"; "pythia"];
     Pandas.rows :=
       [ (22, [VStr "gamma"; VFraction (0 # 1); VFloat float_zero;
               np_nan; VBool false]);
         (11, [VStr "e-"; VFraction (-1 # 1); VFloat float_half;
               np_nan; VBool false]);
         (2212, [VStr "p"; VFraction (1 # 1); VFloat float_half;
                 VStr "uud"; VBool false]);
         (9900041, [VStr "H_L++"; VFraction (2 # 1); np_nan;
                    np_nan; VBool true]) ] |}.

(* ================================================================= *)
(** ** What a query is about *)

(** The record of code [c]: the cells of the first row labelled [c]. *)
Definition record (tbl : Pandas.DataFrame) (c : Z) : option (list value) :=
  option_map snd (find (fun r => fst r =? c) (Pandas.rows tbl)).

(** The value of property [p] in a record of the table. *)
Definition field (tbl : Pandas.DataFrame) (cells : list value) (p : string)
  : value :=
  Pandas.cell cells (Pandas.column_index p (Pandas.columns tbl)).

(** A record projected to a list of properties. *)
Definition project (tbl : Pandas.DataFrame) (props : list string)
    (cells : list value) : list value :=
  map (field tbl cells) props.

(** The fallback-source flag of a record. *)
Definition is_fallback (tbl : Pandas.DataFrame) (cells : list value) : bool :=
  Numpy.truthy (field tbl cells "pythia").

(** What [__init__] establishes of the table it loads with [read_csv]
    and indexes with [set_index("id")]: the index is named ["id"], the
    column labels are distinct and ["id"] is no longer one of them; and
    the data file has a ["pythia"] column. *)
Definition loaded (tbl : Pandas.DataFrame) : Prop :=
  Pandas.index_name tbl = "id"
  /\ NoDup (Pandas.columns tbl)
  /\ ~ In "id" (Pandas.columns tbl)
  /\ In "pythia" (Pandas.columns tbl).

(** The rows a lookup of the distinct codes selects. *)
Definition selected (tbl : Pandas.DataFrame) (pdgs : list Z)
  : list (Z * list value) :=
  flat_map (Pandas.rows_at tbl) (Numpy.sorted_unique pdgs).

(** The condition under which [properties] warns. *)
Definition needs_warning (tbl : Pandas.DataFrame) (pdgs : list Z)
    (props : list string) : bool :=
  existsb (fun r => is_fallback tbl (snd r)) (selected tbl pdgs)
  && negb (issuperset valid_pythia props).

(** Some code of the query has a record with the fallback flag set. *)
Definition fallback_hit (tbl : Pandas.DataFrame) (codes : list Z) : Prop :=
  exists c cells,
    In c codes /\ In (c, cells) (Pandas.rows tbl)
    /\ is_fallback tbl cells = true.

(** Some requested property is outside what the fallback source has. *)
Definition beyond_fallback (props : list string) : Prop :=
  exists p, In p props /\ ~ In p valid_pythia.

(* ================================================================= *)
(** ** Invariants of computations *)

(** A computation that leaves the table as it found it and whose
    outcome depends on the table alone. *)
Definition table_reader {A : Type} (m : M A) : Prop :=
  forall s,
    lookup (snd (m s)) = lookup s
    /\ forall s', lookup s' = lookup s -> fst (m s') = fst (m s).

(** Strictly increasing lists: sorted and free of repeats. *)
Inductive increasing : list Z -> Prop :=
| inc_nil : increasing []
| inc_one x : increasing [x]
| inc_cons x y l : x < y -> increasing (y :: l) -> increasing (x :: y :: l).

(* ================================================================= *)
(** ** Vocabulary of the further properties *)

(** The integer a sign and a magnitude stand for. *)
Definition signed_int (sg : list ascii) (n : Z) : Z :=
  if list_eq_dec ascii_dec sg ["-"%char] then - n else n.

(** The cells of the record of code [c] (none when the table lacks
    [c]). *)
Definition cells_of (tbl : Pandas.DataFrame) (c : Z) : list value :=
  match record tbl c with
  | Some cells => cells
  | None => []
  end.

(* ================================================================= *)
(** * Properties of [frac] *)

Example float_half_value : float_value float_half = Some (1 # 2).
Proof. reflexivity. Qed.
Example frac_half : frac "1/2" false = Return (VFloat float_half).
Proof. reflexivity. Qed.
Example frac_half_obj : frac "1/2" true = Return (VFraction (1 # 2)).
Proof. reflexivity. Qed.
Example frac_neg : frac " -6/8 " true = Return (VFraction (-3 # 4)).
Proof. reflexivity. Qed.
Example frac_dec : frac "1.25e1" true = Return (VFraction (25 # 2)).
Proof. reflexivity. Qed.
Example frac_big : frac "1e400" false = Raise OverflowError.
Proof. vm_compute. reflexivity. Qed.

Section FracFacts.

Import Fractions.

Lemma span_app (p : ascii -> bool) (run rest : list ascii) :
  Forall (fun c => p c = true) run ->
  match rest with c :: _ => p c = false | [] => True end ->
  span p (run ++ rest) = (run, rest).
Proof.
  intros Hrun Hrest. induction Hrun as [|c run Hc _ IH]; simpl.
  - destruct rest as [|c r]; [reflexivity|]. simpl. now rewrite Hrest.
  - now rewrite Hc, IH.
Qed.

Lemma span_all (p : ascii -> bool) (run : list ascii) :
  Forall (fun c => p c = true) run -> span p run = (run, []).
Proof.
  intros H. rewrite <- (app_nil_r run) at 1. now apply span_app.
Qed.

Lemma int_of_zeros_from (l : list ascii) :
  Forall (fun c => c = "0"%char) l ->
  fold_left (fun acc c => 10 * acc + (Z.of_nat (nat_of_ascii c) - 48)) l 0 = 0.
Proof.
  induction 1 as [|c l -> _ IH]; simpl; [reflexivity|exact IH].
Qed.

(** What [frac] does with each outcome of the cast. *)
Lemma frac_cast_raises (num_str : string) (obj_mode : bool) (e : exn) :
  cast_frac obj_mode num_str = Raise e ->
  e <> ValueError ->
  frac num_str obj_mode = Raise e.
Proof.
  intros Hc He. unfold frac. rewrite Hc.
  destruct e; try reflexivity. now elim He.
Qed.

Lemma cast_frac_raises (num_str : string) (obj_mode : bool) (e : exn) :
  Fraction num_str = Raise e -> cast_frac obj_mode num_str = Raise e.
Proof.
  intros H. unfold cast_frac. rewrite H. now destruct obj_mode.
Qed.

(** A digit string, a slash and a string of zeros is read as a fraction
    with denominator zero. *)
Lemma zero_denominator_family (num den : list ascii) :
  num <> [] -> Forall (fun c => is_digit c = true) num ->
  den <> [] -> Forall (fun c => c = "0"%char) den ->
  exists m, rational_format (num ++ "/"%char :: den) = Some m
            /\ snd (ratio_of_groups m) = 0.
Proof.
  intros Hn Hnum Hd Hden.
  assert (Hdig : Forall (fun c => is_digit c = true) den).
  { eapply Forall_impl; [|exact Hden]. now intros c ->. }
  destruct num as [|n0 num]; [now elim Hn|].
  destruct den as [|d0 den]; [now elim Hd|].
  assert (Hn0 : is_digit n0 = true) by now inversion Hnum.
  assert (Hsp : is_space n0 = false).
  { revert Hn0. unfold is_digit, is_space.
    destruct (nat_of_ascii n0) as [|k]; [discriminate|].
    intros H. apply andb_prop in H as [H1 H2].
    apply Nat.leb_le in H1. apply Nat.leb_le in H2.
    apply orb_false_iff; split; apply andb_false_iff; right;
      apply Nat.leb_gt; lia. }
  assert (Hsg : is_sign n0 = false).
  { revert Hn0. unfold is_digit, is_sign.
    destruct (Ascii.eqb_spec n0 "-") as [->|_]; [discriminate|].
    destruct (Ascii.eqb_spec n0 "+") as [->|_]; [discriminate|reflexivity]. }
  unfold rational_format.
  cbn [app span snd]. rewrite Hsp. cbn [snd match_sign]. rewrite Hsg.
  cbn [lookahead]. rewrite Hn0. cbn [orb].
  change (n0 :: (num ++ "/"%char :: d0 :: den))
    with ((n0 :: num) ++ "/"%char :: d0 :: den).
  rewrite (span_app is_digit (n0 :: num) ("/"%char :: d0 :: den) Hnum eq_refl).
  cbn [Ascii.eqb Bool.eqb]. unfold match_fraction.
  rewrite (span_all is_digit (d0 :: den) Hdig).
  cbn [at_end span snd].
  eexists; split; [reflexivity|].
  unfold ratio_of_groups; cbn [g_denom g_num g_sign nonempty].
  destruct (list_eq_dec ascii_dec [] ["-"%char]) as [E|_]; [discriminate E|].
  cbn [snd]. unfold int_of_digits. now apply int_of_zeros_from.
Qed.

(** *** The matcher computes the language of the pattern *)

Lemma span_spec (p : ascii -> bool) (l run rest : list ascii) :
  span p l = (run, rest) -> l = run ++ rest /\ all p run /\ stops p rest.
Proof.
  revert run rest. induction l as [|c l IH]; intros run rest; cbn [span].
  - intros E. injection E as <- <-. repeat split. constructor.
  - destruct (p c) eqn:Hc.
    + destruct (span p l) as [run' rest'].
      intros E. injection E as <- <-.
      destruct (IH run' rest' eq_refl) as (-> & Hrun & Hstop).
      repeat split; [now constructor|assumption].
    + intros E. injection E as <- <-.
      repeat split; [constructor|exact Hc].
Qed.

Lemma span_greedy (p : ascii -> bool) (run rest : list ascii) :
  all p run -> stops p rest -> span p (run ++ rest) = (run, rest).
Proof. intros H1 H2. apply span_app; assumption. Qed.

Lemma at_end_spaces (ws : list ascii) : all is_space ws -> at_end ws = true.
Proof. intros H. unfold at_end. now rewrite (span_all _ _ H). Qed.

Lemma at_end_spec (l : list ascii) : at_end l = true -> all is_space l.
Proof.
  unfold at_end. destruct (span is_space l) as [run rest] eqn:E.
  apply span_spec in E as (-> & Hrun & _). cbn [snd].
  destruct rest; [|discriminate]. now rewrite app_nil_r.
Qed.

(** The classes of characters the pattern tells apart. *)
Ltac by_cases c :=
  destruct c as [[|] [|] [|] [|] [|] [|] [|] [|]]; vm_compute;
  try discriminate; try reflexivity; auto.

Lemma digit_not_space c : is_digit c = true -> is_space c = false.
Proof. by_cases c. Qed.
Lemma digit_not_sign c : is_digit c = true -> is_sign c = false.
Proof. by_cases c. Qed.
Lemma sign_not_space c : is_sign c = true -> is_space c = false.
Proof. by_cases c. Qed.
Lemma sign_not_digit c : is_sign c = true -> is_digit c = false.
Proof. by_cases c. Qed.
Lemma E_not_space c : is_E c = true -> is_space c = false.
Proof. by_cases c. Qed.
Lemma E_not_digit c : is_E c = true -> is_digit c = false.
Proof. by_cases c. Qed.
Lemma E_not_dot c : is_E c = true -> Ascii.eqb c "." = false.
Proof. by_cases c. Qed.
Lemma E_not_slash c : is_E c = true -> Ascii.eqb c "/" = false.
Proof. by_cases c. Qed.
Lemma space_not_digit c : is_space c = true -> is_digit c = false.
Proof. by_cases c. Qed.
Lemma space_not_E c : is_space c = true -> is_E c = false.
Proof. by_cases c. Qed.
Lemma space_not_dot c : is_space c = true -> Ascii.eqb c "." = false.
Proof. by_cases c. Qed.
Lemma space_not_slash c : is_space c = true -> Ascii.eqb c "/" = false.
Proof. by_cases c. Qed.

Lemma stops_spaces (p : ascii -> bool) (ws : list ascii) :
  (forall c, is_space c = true -> p c = false) ->
  all is_space ws -> stops p ws.
Proof.
  intros Hp H. destruct H as [|c ws Hc _]; [exact I|]. now apply Hp.
Qed.

Lemma opt_sign_spec (sg : list ascii) :
  opt_sign sg -> sg = [] \/ exists c, sg = [c] /\ is_sign c = true.
Proof.
  intros [-> | [-> | ->]]; [now left| |]; right; eexists; split; reflexivity.
Qed.

Lemma match_sign_spec (l sg rest : list ascii) :
  match_sign l = (sg, rest) ->
  l = sg ++ rest /\ opt_sign sg
  /\ (sg = [] -> match rest with c :: _ => is_sign c = false | [] => True end).
Proof.
  unfold match_sign. destruct l as [|c r].
  - intros E. injection E as <- <-. repeat split. now left.
  - destruct (is_sign c) eqn:Hc; intros E; injection E as <- <-.
    + repeat split; [|discriminate].
      revert Hc. unfold is_sign, opt_sign.
      destruct (Ascii.eqb_spec c "-") as [->|_]; [auto|].
      destruct (Ascii.eqb_spec c "+") as [->|_]; [auto|discriminate].
    + repeat split; [now left|]. intros _. exact Hc.
Qed.

(** Every match the matcher reports is a word of the pattern. *)
Lemma rational_format_sound (s : list ascii) (m : groups) :
  rational_format s = Some m -> matches s m.
Proof.
  unfold rational_format.
  destruct (span is_space s) as [ws1 s0] eqn:E0.
  apply span_spec in E0 as (-> & Hws1 & _). cbn [snd].
  destruct (match_sign s0) as [sg s1] eqn:E1.
  apply match_sign_spec in E1 as (-> & Hsg & _).
  destruct (lookahead s1) eqn:Hla; [|discriminate].
  destruct (span is_digit s1) as [num s2] eqn:E2.
  apply span_spec in E2 as (-> & Hnum & _).
  assert (Halt2 : match_decimal_exp sg num s2 = Some m ->
                  matches (ws1 ++ sg ++ num ++ s2) m).
  { unfold match_decimal_exp.
    destruct (match_decimal s2) as [dec l1] eqn:Ed.
    destruct (match_exp l1) as [ex l2] eqn:Ee.
    destruct (at_end l2) eqn:Hend; [|discriminate].
    intros E. injection E as <-. apply at_end_spec in Hend.
    assert (Hd : exists dpart, s2 = dpart ++ l1 /\ dec_match dpart dec).
    { revert Ed. unfold match_decimal. destruct s2 as [|c r].
      - intros E. injection E as <- <-. exists []. split; [reflexivity|constructor].
      - destruct (Ascii.eqb_spec c ".") as [->|_].
        + destruct (span is_digit r) as [ds r'] eqn:Er.
          apply span_spec in Er as (-> & Hds & _).
          intros E. injection E as <- <-.
          exists ("."%char :: ds). split; [reflexivity|now constructor].
        + intros E. injection E as <- <-.
          exists []. split; [reflexivity|constructor]. }
    destruct Hd as (dpart & -> & Hdec).
    assert (He : exists epart, l1 = epart ++ l2 /\ exp_match epart ex).
    { revert Ee. unfold match_exp. destruct l1 as [|e r].
      - intros E. injection E as <- <-. exists []. split; [reflexivity|constructor].
      - destruct (is_E e) eqn:HE.
        + destruct (match_sign r) as [sg' r1] eqn:Es.
          apply match_sign_spec in Es as (-> & Hsg' & _).
          destruct (span is_digit r1) as [ds r2] eqn:Er.
          apply span_spec in Er as (-> & Hds & _).
          destruct ds as [|d ds].
          * intros E. injection E as <- <-.
            exists []. split; [reflexivity|constructor].
          * intros E. injection E as <- <-.
            exists (e :: sg' ++ d :: ds). split.
            -- cbn [app]. now rewrite <- !app_assoc.
            -- constructor; [assumption|assumption|discriminate|assumption].
        + intros E. injection E as <- <-.
          exists []. split; [reflexivity|constructor]. }
    destruct He as (epart & -> & Hexp).
    exists ws1, (dpart ++ epart), l2. cbn [g_sign g_num].
    split; [now rewrite <- !app_assoc|].
    split; [assumption|]. split; [assumption|].
    split; [now rewrite <- !app_assoc|]. split; [assumption|].
    split; [|assumption]. now apply tail_decimal. }
  destruct s2 as [|c r]; [exact Halt2|].
  destruct (Ascii.eqb_spec c "/") as [->|_]; [clear Halt2|exact Halt2].
  unfold match_fraction.
  destruct (span is_digit r) as [den r'] eqn:Er.
  apply span_spec in Er as (-> & Hden & _).
  destruct den as [|d den]; [discriminate|].
  destruct (at_end r') eqn:Hend; [|discriminate].
  intros E. injection E as <-. apply at_end_spec in Hend.
  exists ws1, ("/"%char :: d :: den), r'. cbn [g_sign g_num].
  split; [reflexivity|].
  split; [assumption|]. split; [assumption|].
  split; [assumption|]. split; [assumption|].
  split; [|assumption]. apply tail_denom; try reflexivity; [discriminate|assumption].
Qed.

Lemma lookahead_head (l : list ascii) :
  lookahead l = true ->
  exists c r, l = c :: r /\ is_space c = false /\ is_sign c = false.
Proof.
  destruct l as [|c r]; [discriminate|]. cbn [lookahead]. intros H.
  exists c, r. split; [reflexivity|].
  apply orb_prop in H as [H|H].
  - split; [now apply digit_not_space|now apply digit_not_sign].
  - apply andb_prop in H as [H _]. apply Ascii.eqb_eq in H. subst c.
    split; reflexivity.
Qed.

Lemma match_sign_complete (sg rest : list ascii) :
  opt_sign sg -> (sg = [] -> stops is_sign rest) ->
  match_sign (sg ++ rest) = (sg, rest).
Proof.
  intros Hsg Hrest. apply opt_sign_spec in Hsg as [->|(c & -> & Hc)].
  - cbn [app]. specialize (Hrest eq_refl). unfold match_sign.
    destruct rest as [|c r]; [reflexivity|]. cbn [stops] in Hrest.
    now rewrite Hrest.
  - cbn [app match_sign]. now rewrite Hc.
Qed.

Lemma match_decimal_complete (dpart rest : list ascii) (dec : option (list ascii)) :
  dec_match dpart dec -> stops is_digit rest ->
  (dpart = [] -> stops (fun c => Ascii.eqb c ".") rest) ->
  match_decimal (dpart ++ rest) = (dec, rest).
Proof.
  intros Hd Hdig Hdot. destruct Hd as [|ds Hds].
  - cbn [app]. specialize (Hdot eq_refl). unfold match_decimal.
    destruct rest as [|c r]; [reflexivity|]. cbn [stops] in Hdot.
    now rewrite Hdot.
  - cbn [app match_decimal Ascii.eqb Bool.eqb].
    now rewrite (span_greedy _ _ _ Hds Hdig).
Qed.

Lemma match_exp_complete (epart rest : list ascii) (ex : option (list ascii)) :
  exp_match epart ex -> stops is_digit rest ->
  (epart = [] -> stops is_E rest) ->
  match_exp (epart ++ rest) = (ex, rest).
Proof.
  intros He Hdig HE. destruct He as [|e sg ds He Hsg Hne Hds].
  - cbn [app]. specialize (HE eq_refl). unfold match_exp.
    destruct rest as [|c r]; [reflexivity|]. cbn [stops] in HE.
    now rewrite HE.
  - cbn [app match_exp]. rewrite He, <- app_assoc.
    rewrite match_sign_complete; [|assumption|].
    + rewrite (span_greedy _ _ _ Hds Hdig).
      destruct ds as [|d ds]; [now elim Hne|reflexivity].
    + intros _. destruct ds as [|d ds]; [now elim Hne|].
      cbn [app stops]. apply digit_not_sign. now inversion Hds.
Qed.

(** What may follow the digits of [num], [decimal] or [exp]. *)
Lemma stops_exp_spaces (p : ascii -> bool) (epart ws : list ascii)
    (ex : option (list ascii)) :
  (forall c, is_space c = true -> p c = false) ->
  (forall c, is_E c = true -> p c = false) ->
  exp_match epart ex -> all is_space ws -> stops p (epart ++ ws).
Proof.
  intros Hsp HE He Hws. destruct He as [|e sg ds He _ _ _].
  - now apply stops_spaces.
  - cbn [app stops]. now apply HE.
Qed.

(** Every word of the pattern is matched, with its groups. *)
Lemma rational_format_complete (s : list ascii) (m : groups) :
  matches s m -> rational_format s = Some m.
Proof.
  intros (ws1 & tl & ws2 & -> & Hws1 & Hsg & Hla & Hnum & Htl & Hws2).
  destruct m as [sg num denom dec ex]. cbn [g_sign g_num] in *.
  destruct (lookahead_head _ Hla) as (c0 & r0 & E0 & Hc0 & Hc0').
  unfold rational_format.
  assert (Hstop1 : stops is_space (sg ++ num ++ tl ++ ws2)).
  { destruct (opt_sign_spec _ Hsg) as [->|(c & -> & Hc)].
    - cbn [app]. now rewrite E0.
    - cbn [app stops]. now apply sign_not_space. }
  rewrite (span_greedy _ _ _ Hws1 Hstop1). cbn [snd].
  rewrite match_sign_complete;
    [|assumption|intros _; now rewrite E0].
  rewrite Hla.
  assert (Hstop2 : stops is_digit (tl ++ ws2)).
  { destruct Htl as [den _ _ _ _ _|dpart epart _ Hd He].
    - reflexivity.
    - rewrite <- app_assoc. destruct Hd as [|ds _].
      + cbn [app]. eapply stops_exp_spaces; eauto using space_not_digit, E_not_digit.
      + reflexivity. }
  rewrite (span_greedy _ _ _ Hnum Hstop2).
  destruct Htl as [den Hne Hden E1 E2 E3|dpart epart E1 Hd He];
    cbn [g_denom g_decimal g_exp] in *; subst.
  - cbn [app Ascii.eqb Bool.eqb]. unfold match_fraction.
    rewrite (span_greedy _ _ _ Hden (stops_spaces _ _ space_not_digit Hws2)).
    destruct den as [|d den]; [now elim Hne|].
    now rewrite (at_end_spaces _ Hws2).
  - assert (Hrun : match_decimal_exp sg num ((dpart ++ epart) ++ ws2)
                   = Some {| g_sign := sg; g_num := num; g_denom := None;
                             g_decimal := dec; g_exp := ex |}).
    { unfold match_decimal_exp. rewrite <- app_assoc.
      rewrite (match_decimal_complete dpart (epart ++ ws2) dec Hd).
      - rewrite (match_exp_complete epart ws2 ex He).
        + now rewrite (at_end_spaces _ Hws2).
        + now apply (stops_spaces _ _ space_not_digit).
        + intros _. now apply (stops_spaces _ _ space_not_E).
      - eapply stops_exp_spaces; eauto using space_not_digit, E_not_digit.
      - intros _. eapply stops_exp_spaces; eauto using space_not_dot, E_not_dot. }
    destruct ((dpart ++ epart) ++ ws2) as [|c r] eqn:El; [exact Hrun|].
    assert (Hslash : Ascii.eqb c "/" = false).
    { assert (Hst : stops (fun c => Ascii.eqb c "/") ((dpart ++ epart) ++ ws2)).
      { rewrite <- app_assoc. destruct Hd as [|ds _].
        - cbn [app]. eapply stops_exp_spaces; eauto using space_not_slash, E_not_slash.
        - reflexivity. }
      now rewrite El in Hst. }
    now rewrite Hslash.
Qed.

(** The matcher decides the language of the pattern, and the groups of
    a match are determined by the string. *)
Lemma rational_format_matches (s : list ascii) (m : groups) :
  rational_format s = Some m <-> matches s m.
Proof.
  split; [apply rational_format_sound|apply rational_format_complete].
Qed.

Lemma matches_functional (s : list ascii) (m m' : groups) :
  matches s m -> matches s m' -> m = m'.
Proof.
  intros H H'. apply rational_format_complete in H, H'. congruence.
Qed.

(** [Fraction] raises [ValueError] exactly on the strings outside the
    language of the pattern. *)
Lemma Fraction_ValueError (s : string) :
  Fraction s = Raise ValueError
  <-> forall m, ~ matches (list_ascii_of_string s) m.
Proof.
  unfold Fraction. split.
  - intros H m Hm. apply rational_format_complete in Hm. rewrite Hm in H.
    destruct (ratio_of_groups m) as [n d]. unfold normalize in H.
    destruct (d =? 0); discriminate H.
  - intros H. destruct (rational_format (list_ascii_of_string s)) as [m|] eqn:E;
      [|reflexivity].
    apply rational_format_sound in E. now elim (H m).
Qed.

End FracFacts.

(** C3.  A string that is not a rational number for [Fraction], that
    is, outside the language of its pattern, and that is neither empty
    nor ["?"] does not make [frac] fail: the handler takes neither
    branch and [frac] returns [None], in both modes. *)
Theorem frac_unparseable_returns_None (num_str : string) (obj_mode : bool) :
  (forall m, ~ Fractions.matches (list_ascii_of_string num_str) m) ->
  num_str <> "" ->
  num_str <> "?" ->
  frac num_str obj_mode = Return VNone.
Proof.
  intros Hbad Hne Hq. apply Fraction_ValueError in Hbad. unfold frac.
  rewrite (cast_frac_raises _ obj_mode _ Hbad).
  destruct (String.eqb_spec num_str "") as [E|_]; [now elim Hne|].
  destruct (String.eqb_spec num_str "?") as [E|_]; [now elim Hq|].
  reflexivity.
Qed.

Lemma frac_unparseable_returns_None_abc :
  frac "abc" false = Return VNone /\ frac "abc" true = Return VNone.
Proof.
  split; apply frac_unparseable_returns_None;
    solve [ discriminate
          | intros m H; apply rational_format_complete in H; discriminate H ].
Defined.

(** C7.  [frac("1/2")] is the float [0.5] (the fraction [1/2] in exact
    mode); [frac("")] is zero, the float [0.0] or the fraction [0/1],
    and not an error; [frac("?")] is [np.nan] in both modes. *)
Theorem frac_documented_values :
  frac "1/2" false = Return (VFloat float_half)
  /\ float_value float_half = Some (1 # 2)
  /\ frac "1/2" true = Return (VFraction (1 # 2))
  /\ frac "" false = Return (VFloat float_zero)
  /\ float_value float_zero = Some (0 # 1)
  /\ frac "" true = Return (VFraction (0 # 1))
  /\ frac "?" false = Return (VFloat S754_nan)
  /\ frac "?" true = Return (VFloat S754_nan).
Proof. repeat split; reflexivity. Qed.

(** C10.  A string that the pattern accepts and whose denominator is
    zero, such as ["1/0"], makes [frac] raise [ZeroDivisionError] in both
    modes: the handler catches [ValueError] only, so the error is turned
    neither into [np.nan], nor into zero, nor into [ValueError]. *)
Theorem frac_zero_denominator_raises
    (num_str : string) (m : Fractions.groups) (obj_mode : bool) :
  Fractions.matches (list_ascii_of_string num_str) m ->
  snd (Fractions.ratio_of_groups m) = 0 ->
  frac num_str obj_mode = Raise ZeroDivisionError.
Proof.
  intros Hm Hz. apply rational_format_complete in Hm.
  apply frac_cast_raises; [|discriminate].
  apply cast_frac_raises. unfold Fractions.Fraction. rewrite Hm.
  destruct (Fractions.ratio_of_groups m) as [n d]. simpl in Hz. subst d.
  reflexivity.
Qed.

Lemma frac_zero_denominator_raises_1_0 :
  frac "1/0" false = Raise ZeroDivisionError
  /\ frac "1/0" true = Raise ZeroDivisionError.
Proof.
  split;
    apply (frac_zero_denominator_raises "1/0"
             {| Fractions.g_sign := []; Fractions.g_num := ["1"%char];
                Fractions.g_denom := Some ["0"%char];
                Fractions.g_decimal := None; Fractions.g_exp := None |});
    solve [ reflexivity | apply rational_format_sound; reflexivity ].
Defined.

(* ================================================================= *)
(** * Facts about the numpy operations *)

Section NumpyFacts.

Import Numpy.

Lemma insert_sorted_In (x y : Z) (l : list Z) :
  In y (insert_sorted x l) <-> y = x \/ In y l.
Proof.
  induction l as [|z l IH]; simpl.
  - intuition.
  - destruct (Z.ltb_spec x z) as [_|_]; simpl; [intuition|].
    destruct (Z.eqb_spec x z) as [->|_]; simpl; [intuition|].
    rewrite IH. intuition.
Qed.

Lemma sorted_unique_In (x : Z) (ar : list Z) :
  In x (sorted_unique ar) <-> In x ar.
Proof.
  induction ar as [|y ar IH]; simpl; [reflexivity|].
  rewrite insert_sorted_In, IH. intuition.
Qed.

Lemma insert_sorted_increasing (x : Z) (l : list Z) :
  increasing l -> increasing (insert_sorted x l).
Proof.
  induction 1 as [|y|y z l Hyz Hl IH]; simpl.
  - constructor.
  - destruct (Z.ltb_spec x y); [constructor; [assumption|constructor]|].
    destruct (Z.eqb_spec x y); constructor; try constructor; lia.
  - destruct (Z.ltb_spec x y) as [Hxy|Hxy].
    + constructor; [assumption|]. now constructor.
    + destruct (Z.eqb_spec x y) as [->|Hne]; [now constructor|].
      simpl in IH.
      destruct (Z.ltb_spec x z) as [Hxz|Hxz].
      * constructor; [lia|assumption].
      * destruct (Z.eqb_spec x z) as [->|Hne'];
          constructor; assumption.
Qed.

Lemma sorted_unique_increasing (ar : list Z) : increasing (sorted_unique ar).
Proof.
  induction ar; simpl; [constructor|now apply insert_sorted_increasing].
Qed.

Lemma index_of_lt (x : Z) (l : list Z) :
  In x l -> (index_of x l < length l)%nat.
Proof.
  induction l as [|y l IH]; simpl; [tauto|].
  intros H. destruct (Z.eqb_spec x y) as [->|Hne]; [lia|].
  destruct H as [->|H]; [now elim Hne|]. apply IH in H. lia.
Qed.

Lemma index_of_nth_error (x : Z) (l : list Z) :
  In x l -> nth_error l (index_of x l) = Some x.
Proof.
  induction l as [|y l IH]; simpl; [tauto|].
  intros H. destruct (Z.eqb_spec x y) as [->|Hne]; [reflexivity|].
  destruct H as [->|H]; [now elim Hne|]. now apply IH.
Qed.

(** Indexing the distinct elements by the inverse gives the input
    back. *)
Lemma unique_inverse (ar : list Z) :
  take (fst (unique ar)) (snd (unique ar)) = Return ar.
Proof.
  unfold unique; cbn [fst snd].
  assert (H : forall l, incl l ar ->
            take (sorted_unique ar)
                 (map (fun x => index_of x (sorted_unique ar)) l) = Return l).
  { induction l as [|x l IH]; intros Hl; simpl; [reflexivity|].
    rewrite index_of_nth_error
      by (apply sorted_unique_In, Hl; now left).
    rewrite IH by (intros y Hy; apply Hl; now right).
    reflexivity. }
  apply H, incl_refl.
Qed.

Lemma take_in_range {A : Type} (a : list A) (idxs : list nat) (d : A) :
  (forall i, In i idxs -> (i < length a)%nat) ->
  take a idxs = Return (map (fun i => nth i a d) idxs).
Proof.
  induction idxs as [|i idxs IH]; intros H; simpl; [reflexivity|].
  assert (Hi : (i < length a)%nat) by (apply H; now left).
  rewrite (nth_error_nth' a d Hi).
  rewrite IH by (intros j Hj; apply H; now right).
  reflexivity.
Qed.

End NumpyFacts.

(* ================================================================= *)
(** * Facts about the pandas operations *)

Section PandasFacts.

Import Pandas.

Lemma mem_Z_In (x : Z) (l : list Z) : mem_Z x l = true <-> In x l.
Proof.
  unfold mem_Z. rewrite existsb_exists. split.
  - intros (y & Hy & E). apply Z.eqb_eq in E. now subst.
  - intros H. exists x. split; [assumption|apply Z.eqb_refl].
Qed.

Lemma mem_str_In (x : string) (l : list string) :
  mem_str x l = true <-> In x l.
Proof.
  unfold mem_str. rewrite existsb_exists. split.
  - intros (y & Hy & E). apply String.eqb_eq in E. now subst.
  - intros H. exists x. split; [assumption|apply String.eqb_refl].
Qed.

Lemma distinct_NoDup (l : list string) : distinct l = true <-> NoDup l.
Proof.
  induction l as [|x l IH]; simpl.
  - split; [constructor|reflexivity].
  - rewrite andb_true_iff, negb_true_iff, IH. split.
    + intros [Hx Hl]. constructor; [|assumption].
      intros Hin. apply mem_str_In in Hin. congruence.
    + intros H. inversion H as [|? ? Hx Hl]; subst. split; [|assumption].
      destruct (mem_str x l) eqn:E; [|reflexivity].
      apply mem_str_In in E. contradiction.
Qed.

Lemma filter_none {A : Type} (f : A -> bool) (l : list A) :
  (forall x, In x l -> f x = false) -> filter f l = [].
Proof.
  induction l as [|x l IH]; intros H; simpl; [reflexivity|].
  rewrite (H x) by now left. apply IH. intros y Hy. apply H. now right.
Qed.

Lemma filter_some {A : Type} (f : A -> bool) (l : list A) (x : A) :
  In x l -> f x = true -> filter f l <> [].
Proof.
  intros Hin Hf E.
  assert (Hx : In x (filter f l)) by (apply filter_In; now split).
  rewrite E in Hx. exact Hx.
Qed.

(** [loc] on labels that are all in the index. *)
Lemma loc_known (df : DataFrame) (ids : list Z) :
  incl ids (index df) ->
  loc df ids = Return {| index_name := index_name df;
                         columns := columns df;
                         rows := flat_map (rows_at df) ids |}.
Proof.
  intros H. unfold loc. rewrite filter_none; [reflexivity|].
  intros i Hi. apply negb_false_iff, mem_Z_In, H, Hi.
Qed.

(** [loc] when a label is not in the index: [KeyError] with exactly the
    requested labels that the index lacks. *)
Lemma loc_unknown (df : DataFrame) (ids : list Z) (c : Z) :
  In c ids -> ~ In c (index df) ->
  exists missing,
    loc df ids = Raise (KeyError (map LInt missing))
    /\ In c missing
    /\ forall i, In i missing <-> In i ids /\ ~ In i (index df).
Proof.
  intros Hc Hn. unfold loc.
  set (f := fun i => negb (mem_Z i (index df))).
  assert (Hf : forall i, f i = true <-> ~ In i (index df)).
  { intros i. unfold f. rewrite negb_true_iff, <- mem_Z_In.
    destruct (mem_Z i (index df)); intuition congruence. }
  assert (Hin : In c (filter f ids)) by (apply filter_In; split; [|apply Hf]; assumption).
  destruct (filter f ids) as [|m ms] eqn:E; [destruct Hin|].
  exists (m :: ms). split; [reflexivity|]. split; [assumption|].
  intros i. rewrite <- E, filter_In, Hf. reflexivity.
Qed.

(** Every requested label of a successful [loc] contributes a row. *)
Lemma rows_at_nonempty (df : DataFrame) (i : Z) :
  In i (index df) -> rows_at df i <> [].
Proof.
  unfold index. rewrite in_map_iff. intros (r & Hr & Hin).
  apply (filter_some _ _ r Hin). now apply Z.eqb_eq.
Qed.

Lemma flat_map_length_ge {A B : Type} (f : A -> list B) (l : list A) :
  (forall x, In x l -> f x <> []) ->
  (length l <= length (flat_map f l))%nat.
Proof.
  induction l as [|x l IH]; intros H; simpl; [lia|].
  rewrite length_app.
  assert (f x <> []) by (apply H; now left).
  assert (length l <= length (flat_map f l))%nat
    by (apply IH; intros y Hy; apply H; now right).
  destruct (f x); [congruence|simpl; lia].
Qed.

Lemma positions_from_absent (k : nat) (p : string) (cols : list string) :
  ~ In p cols -> positions_from k p cols = [].
Proof.
  revert k. induction cols as [|c cols IH]; intros k H; simpl; [reflexivity|].
  destruct (String.eqb_spec c p) as [->|_]; [elim H; now left|].
  apply IH. intros Hin. apply H. now right.
Qed.

Lemma positions_from_unique (k : nat) (p : string) (cols : list string) :
  NoDup cols -> In p cols ->
  positions_from k p cols = [(k + column_index p cols)%nat].
Proof.
  intros Hnd. revert k. induction Hnd as [|c cols Hc Hnd IH]; intros k Hin; simpl.
  - destruct Hin.
  - destruct (String.eqb_spec c p) as [->|Hne].
    + rewrite positions_from_absent by assumption. now rewrite Nat.add_0_r.
    + destruct Hin as [->|Hin]; [now elim Hne|].
      rewrite IH by assumption. f_equal. lia.
Qed.

Lemma positions_unique (p : string) (cols : list string) :
  NoDup cols -> In p cols -> positions p cols = [column_index p cols].
Proof. intros. unfold positions. now rewrite positions_from_unique. Qed.

Lemma flat_map_singletons {A B : Type} (f : A -> list B) (g : A -> B) (l : list A) :
  (forall x, In x l -> f x = [g x]) -> flat_map f l = map g l.
Proof.
  induction l as [|x l IH]; intros H; simpl; [reflexivity|].
  rewrite H by now left. simpl. f_equal. apply IH.
  intros y Hy. apply H. now right.
Qed.

(** [getitems] on distinct-column frames and known labels: one column
    per requested label, in the order of the request. *)
Lemma getitems_known (df : DataFrame) (key : list string) :
  NoDup (columns df) -> incl key (columns df) ->
  getitems df key =
    Return {| index_name := index_name df;
              columns := key;
              rows := map (fun r =>
                        (fst r, map (fun p => cell (snd r) (column_index p (columns df))) key))
                        (rows df) |}.
Proof.
  intros Hnd Hin. unfold getitems.
  rewrite filter_none
    by (intros p Hp; apply negb_false_iff, mem_str_In, Hin, Hp).
  assert (Hpos : flat_map (fun p => positions p (columns df)) key
                 = map (fun p => column_index p (columns df)) key).
  { apply flat_map_singletons. intros p Hp. apply positions_unique; auto. }
  assert (Hcols : flat_map (fun p => map (fun _ => p) (positions p (columns df))) key
                  = key).
  { rewrite (flat_map_singletons _ (fun p => p)); [apply map_id|].
    intros p Hp. rewrite positions_unique; auto. }
  rewrite Hpos, Hcols. do 2 f_equal.
  apply map_ext. intros r. now rewrite map_map.
Qed.

Lemma getitems_unknown (df : DataFrame) (key : list string) (p : string) :
  In p key -> ~ In p (columns df) ->
  exists missing, getitems df key = Raise (KeyError (map LStr missing))
                  /\ In p missing.
Proof.
  intros Hp Hn. unfold getitems.
  set (f := fun q => negb (mem_str q (columns df))).
  assert (Hin : In p (filter f key)).
  { apply filter_In. split; [assumption|]. unfold f.
    apply negb_true_iff. destruct (mem_str p (columns df)) eqn:E; [|reflexivity].
    apply mem_str_In in E. contradiction. }
  destruct (filter f key) as [|m ms]; [destruct Hin|].
  exists (m :: ms). split; [reflexivity|assumption].
Qed.

End PandasFacts.

Section QueryFacts.

Import Pandas.

Lemma compress_all {A : Type} (mask : list bool) (l : list A) :
  Forall (fun b => b = true) mask -> (length l <= length mask)%nat ->
  Rfn.compress mask l = l.
Proof.
  intros H. revert l. induction H as [|b mask -> _ IH]; intros l Hl.
  - destruct l; [reflexivity|simpl in Hl; lia].
  - destruct l as [|x l]; [reflexivity|]. simpl. f_equal. apply IH.
    simpl in Hl. lia.
Qed.

Lemma keep_mask (drop : string) (fields : list string) :
  ~ In drop fields ->
  Forall (fun b => b = true)
         (map (fun n => negb (String.eqb n drop)) fields).
Proof.
  intros H. apply Forall_forall. intros b Hb.
  apply in_map_iff in Hb as (n & <- & Hn).
  apply negb_true_iff. destruct (String.eqb_spec n drop) as [->|_];
    [contradiction|reflexivity].
Qed.

Lemma to_records_indexed_by_id (df : DataFrame) :
  index_name df = "id" ->
  NoDup (columns df) -> ~ In "id" (columns df) ->
  to_records df
  = Return {| names := "id" :: columns df;
              records := map (fun r => VInt (fst r) :: snd r) (rows df) |}.
Proof.
  intros Hid Hnd Hno. unfold to_records. rewrite Hid.
  assert (Hd : distinct ("id" :: columns df) = true).
  { apply distinct_NoDup. now constructor. }
  now rewrite Hd.
Qed.

Lemma to_records_repeated (df : DataFrame) :
  ~ NoDup (columns df) -> to_records df = Raise ValueError.
Proof.
  intros H. unfold to_records.
  destruct (distinct (index_name df :: columns df)) eqn:E; [|reflexivity].
  apply distinct_NoDup in E. inversion E; subst. contradiction.
Qed.

(** Dropping the field ["id"] of the records of a frame indexed by
    ["id"] leaves the columns and the cells of the frame. *)
Lemma drop_fields_id (cols : list string) (rws : list (Z * list value)) :
  ~ In "id" cols ->
  Forall (fun r => length (snd r) = length cols) rws ->
  Rfn.drop_fields
    {| names := "id" :: cols;
       records := map (fun r => VInt (fst r) :: snd r) rws |} "id"
  = {| names := cols; records := map snd rws |}.
Proof.
  intros Hno Hrect. unfold Rfn.drop_fields. cbn [names records].
  cbn [map]. rewrite String.eqb_refl. cbn [negb Rfn.compress].
  pose proof (keep_mask "id" cols Hno) as Hmask.
  f_equal.
  - apply compress_all; [assumption|]. now rewrite length_map.
  - rewrite map_map. apply map_ext_in. intros r Hr. cbn [Rfn.compress].
    apply compress_all; [assumption|]. rewrite length_map.
    rewrite Forall_forall in Hrect. now rewrite (Hrect r Hr).
Qed.

Lemma selected_covers (tbl : DataFrame) (pdgs : list Z) (c : Z) :
  incl pdgs (index tbl) -> In c pdgs ->
  (Numpy.index_of c (Numpy.sorted_unique pdgs) < length (selected tbl pdgs))%nat.
Proof.
  intros Hin Hc. unfold selected.
  eapply Nat.lt_le_trans.
  - apply index_of_lt. now apply sorted_unique_In.
  - apply flat_map_length_ge. intros x Hx.
    apply rows_at_nonempty, Hin. now apply sorted_unique_In.
Qed.

(** The flags [properties] reads are the fallback flags of the selected
    rows. *)
Lemma getitem_pythia (tbl : DataFrame) (ids : list Z) :
  NoDup (columns tbl) -> In "pythia" (columns tbl) ->
  getitem {| index_name := index_name tbl; columns := columns tbl;
             rows := flat_map (rows_at tbl) ids |} "pythia"
  = Return (map (fun r => field tbl (snd r) "pythia")
                (flat_map (rows_at tbl) ids)).
Proof.
  intros Hnd Hin. unfold getitem. cbn [columns rows].
  rewrite positions_unique by assumption.
  f_equal; try now apply flat_map_singletons.
Qed.

(** How the steps of a computation run. *)
Lemma run_ret {A B} (a : A) (k : A -> M B) (s : service) :
  bind (ret a) k s = k a s.
Proof. reflexivity. Qed.

Lemma run_lift_return {A B} (a : A) (k : A -> M B) (s : service) :
  bind (lift (Return a)) k s = k a s.
Proof. reflexivity. Qed.

Lemma run_lift_raise {A B} (e : exn) (k : A -> M B) (s : service) :
  bind (lift (Raise e)) k s = (Raise e, s).
Proof. reflexivity. Qed.

Lemma run_warn {B} (msg : string) (k : unit -> M B) (s : service) :
  bind (warn msg) k s
  = k tt {| lookup := lookup s; warned := warned s ++ [msg];
            lookups := lookups s |}.
Proof. reflexivity. Qed.

Lemma run_lookup_loc {B} (ids : list Z) (k : DataFrame -> M B) (s : service) :
  incl ids (index (lookup s)) ->
  bind (lookup_loc ids) k s
  = k {| index_name := index_name (lookup s);
         columns := columns (lookup s);
         rows := flat_map (rows_at (lookup s)) ids |}
      {| lookup := lookup s; warned := warned s;
         lookups := lookups s ++ [ids] |}.
Proof.
  intros H. unfold bind, lookup_loc. now rewrite (loc_known _ _ H).
Qed.

Lemma any_flags (tbl : DataFrame) (rws : list (Z * list value)) :
  Numpy.any (map (fun r => field tbl (snd r) "pythia") rws)
  = existsb (fun r => is_fallback tbl (snd r)) rws.
Proof.
  unfold Numpy.any, is_fallback.
  induction rws as [|r rws IH]; simpl; congruence.
Qed.

(** The whole run of a query on known codes and distinct known
    properties. *)
Lemma properties_run (s : service) (pdgs : list Z) (props : list string) :
  loaded (lookup s) ->
  incl pdgs (index (lookup s)) ->
  incl props (columns (lookup s)) ->
  NoDup props ->
  properties pdgs props s =
    (Return {| names := props;
               records :=
                 map (fun c =>
                        project (lookup s) props
                          (snd (nth (Numpy.index_of c (Numpy.sorted_unique pdgs))
                                    (selected (lookup s) pdgs) (0, []))))
                     pdgs |},
     {| lookup := lookup s;
        warned := warned s ++
                  (if needs_warning (lookup s) pdgs props
                   then [pythia_message] else []);
        lookups := lookups s ++ [Numpy.sorted_unique pdgs;
                                 Numpy.sorted_unique pdgs] |}).
Proof.
  intros (Hid & Hnd & Hno & Hpy) Hcodes Hprops Hndp.
  assert (Hno' : ~ In "id" props) by (intros H; apply Hno, Hprops, H).
  unfold properties, Numpy.unique, needs_warning, selected.
  set (u := Numpy.sorted_unique pdgs).
  assert (Hu : incl u (index (lookup s))).
  { intros c Hc. apply Hcodes. now apply sorted_unique_In. }
  rewrite (run_lookup_loc _ _ _ Hu).
  rewrite (getitem_pythia _ _ Hnd Hpy), run_lift_return, any_flags.
  set (w := existsb _ _ && negb _).
  assert (Hw : forall B (k : unit -> M B) s0,
            bind (if w then warn pythia_message else ret tt) k s0
            = k tt {| lookup := lookup s0;
                      warned := warned s0 ++ (if w then [pythia_message] else []);
                      lookups := lookups s0 |}).
  { intros B k [t wd lk]. destruct w; cbn [lookup warned lookups].
    - apply run_warn.
    - rewrite run_ret, app_nil_r. reflexivity. }
  rewrite Hw. cbn [lookup warned lookups].
  rewrite run_lookup_loc by exact Hu. cbn [lookup warned lookups].
  rewrite getitems_known by assumption. rewrite run_lift_return.
  cbn [index_name columns rows].
  rewrite to_records_indexed_by_id by assumption.
  rewrite run_lift_return. cbn [columns rows].
  rewrite drop_fields_id;
    [|assumption
     |apply Forall_forall; intros r Hr;
      apply in_map_iff in Hr as (r0 & <- & _);
      cbn [snd]; apply length_map].
  cbn [names records]. rewrite map_map. cbn [snd].
  assert (Hrange : forall c, In c pdgs ->
            (Numpy.index_of c u < length (flat_map (rows_at (lookup s)) u))%nat).
  { intros c Hc. now apply (selected_covers (lookup s) pdgs c). }
  rewrite (take_in_range _ _ []).
  - rewrite run_lift_return. unfold ret. rewrite <- app_assoc. cbn [app].
    do 3 f_equal. rewrite map_map.
    apply map_ext_in. intros c Hc. unfold project, field.
    rewrite <- (map_nth (fun r => map (fun p => cell (snd r)
                           (column_index p (columns (lookup s)))) props)).
    apply nth_indep. rewrite length_map. now apply Hrange.
  - intros i Hi. apply in_map_iff in Hi as (c & <- & Hc).
    rewrite length_map. now apply Hrange.
Qed.

(** The run up to the projected frame, on known codes and known
    properties that may repeat. *)
Lemma properties_run_repeated (s : service) (pdgs : list Z) (props : list string) :
  loaded (lookup s) ->
  incl pdgs (index (lookup s)) ->
  incl props (columns (lookup s)) ->
  ~ NoDup props ->
  fst (properties pdgs props s) = Raise ValueError.
Proof.
  intros (Hid & Hnd & Hno & Hpy) Hcodes Hprops Hrep.
  unfold properties, Numpy.unique.
  set (u := Numpy.sorted_unique pdgs).
  assert (Hu : incl u (index (lookup s))).
  { intros c Hc. apply Hcodes. now apply sorted_unique_In. }
  rewrite (run_lookup_loc _ _ _ Hu).
  rewrite (getitem_pythia _ _ Hnd Hpy), run_lift_return.
  match goal with
  | |- context [if ?c then warn _ else ret tt] => destruct c
  end;
    [rewrite run_warn|rewrite run_ret];
    cbn [lookup warned lookups];
    rewrite run_lookup_loc by exact Hu; cbn [lookup warned lookups];
    rewrite getitems_known by assumption; rewrite run_lift_return;
    rewrite to_records_repeated by exact Hrep;
    reflexivity.
Qed.

(** The lookups of a query on known codes, whatever the properties. *)
Lemma properties_lookups_known (s : service) (pdgs : list Z) (props : list string) :
  loaded (lookup s) ->
  incl pdgs (index (lookup s)) ->
  lookups (snd (properties pdgs props s))
  = lookups s ++ [Numpy.sorted_unique pdgs; Numpy.sorted_unique pdgs].
Proof.
  intros (Hid & Hnd & Hno & Hpy) Hcodes.
  unfold properties, Numpy.unique.
  set (u := Numpy.sorted_unique pdgs).
  assert (Hu : incl u (index (lookup s))).
  { intros c Hc. apply Hcodes. now apply sorted_unique_In. }
  rewrite (run_lookup_loc _ _ _ Hu).
  rewrite (getitem_pythia _ _ Hnd Hpy), run_lift_return.
  match goal with
  | |- context [if ?c then warn _ else ret tt] => destruct c
  end;
    [rewrite run_warn|rewrite run_ret];
    cbn [lookup warned lookups];
    rewrite run_lookup_loc by exact Hu; cbn [lookup warned lookups];
    (destruct (getitems _ props) as [a1|e];
       [rewrite run_lift_return|rewrite run_lift_raise];
       [destruct (to_records a1) as [a2|e];
          [rewrite run_lift_return|rewrite run_lift_raise];
          [destruct (Numpy.take _ _) as [a3|e];
             [rewrite run_lift_return|rewrite run_lift_raise]| ] | ]);
    cbn [snd ret lookups]; now rewrite <- app_assoc.
Qed.

(** The run of a query one of whose codes the table does not have. *)
Lemma properties_run_unknown (s : service) (pdgs : list Z) (props : list string)
    (c : Z) :
  In c pdgs -> ~ In c (index (lookup s)) ->
  exists missing,
    properties pdgs props s
    = (Raise (KeyError (map LInt missing)),
       {| lookup := lookup s; warned := warned s;
          lookups := lookups s ++ [Numpy.sorted_unique pdgs] |})
    /\ In c missing
    /\ forall i, In i missing <-> In i pdgs /\ ~ In i (index (lookup s)).
Proof.
  intros Hc Hn.
  destruct (loc_unknown (lookup s) (Numpy.sorted_unique pdgs) c)
    as (missing & Hloc & Hin & Hall);
    [now apply sorted_unique_In|assumption|].
  exists missing. split; [|split; [assumption|]].
  - unfold properties, Numpy.unique, bind at 1, lookup_loc.
    now rewrite Hloc.
  - intros i. rewrite Hall, sorted_unique_In. reflexivity.
Qed.

Lemma take_length {A : Type} (a : list A) (idxs : list nat) (r : list A) :
  Numpy.take a idxs = Return r -> length r = length idxs.
Proof.
  revert r. induction idxs as [|i idxs IH]; intros r; cbn [Numpy.take].
  - intros E. injection E as <-. reflexivity.
  - destruct (nth_error a i) as [x|]; [|discriminate].
    destruct (Numpy.take a idxs) as [xs|e]; cbn [obind]; [|discriminate].
    intros E. injection E as <-. cbn [length]. f_equal. now apply IH.
Qed.

(** Whatever the table, the codes and the properties: a result, when
    there is one, has one row per queried code. *)
Lemma properties_result_length
    (s : service) (pdgs : list Z) (props : list string) (res : recarray) :
  fst (properties pdgs props s) = Return res ->
  length (records res) = length pdgs.
Proof.
  unfold properties, Numpy.unique, bind, lookup_loc, lift.
  destruct (loc (lookup s) _) as [sel|e]; [|discriminate].
  destruct (getitem sel "pythia") as [flags|e]; [|discriminate].
  match goal with
  | |- context [if ?c then warn _ else ret tt] => destruct c
  end; unfold warn, ret; cbn [lookup];
    (destruct (loc (lookup s) _) as [sel2|e]; [|discriminate]);
    (destruct (getitems sel2 props) as [a1|e]; [|discriminate]);
    (destruct (to_records a1) as [a2|e]; [|discriminate]);
    (destruct (Numpy.take _ _) as [a3|e] eqn:E; [|discriminate]);
    cbn [fst]; intros H; injection H as <-; cbn [records];
    apply take_length in E; now rewrite E, length_map.
Qed.

(** With distinct index labels, a code selects its record and nothing
    else. *)
Lemma rows_at_record (tbl : DataFrame) (c : Z) :
  NoDup (index tbl) -> In c (index tbl) ->
  exists cells, record tbl c = Some cells /\ rows_at tbl c = [(c, cells)].
Proof.
  unfold index, record, rows_at.
  induction (rows tbl) as [|[i cells] rws IH]; cbn [map fst find filter];
    intros Hnd Hin; [destruct Hin|].
  inversion Hnd as [|? ? Hi Hnd']; subst.
  destruct (Z.eqb_spec i c) as [->|Hne].
  - exists cells. split; [reflexivity|]. f_equal.
    apply filter_none. intros r Hr.
    apply Z.eqb_neq. intros E. apply Hi. rewrite <- E. now apply in_map.
  - destruct Hin as [E|Hin]; [now elim Hne|]. now apply IH.
Qed.

Lemma selected_record (tbl : DataFrame) (pdgs : list Z) (c : Z) :
  NoDup (index tbl) -> incl pdgs (index tbl) -> In c pdgs ->
  exists cells,
    record tbl c = Some cells
    /\ nth (Numpy.index_of c (Numpy.sorted_unique pdgs)) (selected tbl pdgs) (0, [])
       = (c, cells).
Proof.
  intros Hnd Hin Hc.
  set (g := fun i => (i, match record tbl i with Some cells => cells | None => [] end)).
  assert (Hsel : selected tbl pdgs = map g (Numpy.sorted_unique pdgs)).
  { apply flat_map_singletons. intros i Hi.
    destruct (rows_at_record tbl i Hnd) as (cells & Hrec & Hrows).
    - apply Hin. now apply sorted_unique_In.
    - unfold g. now rewrite Hrec. }
  destruct (rows_at_record tbl c Hnd (Hin c Hc)) as (cells & Hrec & _).
  exists cells. split; [assumption|].
  rewrite Hsel.
  assert (Hu : In c (Numpy.sorted_unique pdgs)) by now apply sorted_unique_In.
  rewrite (nth_indep _ (0, []) (g 0)), map_nth
    by (rewrite length_map; now apply index_of_lt).
  rewrite (nth_error_nth _ _ 0 (index_of_nth_error c _ Hu)).
  unfold g. now rewrite Hrec.
Qed.

End QueryFacts.

(* ================================================================= *)
(** * The table is only read *)

Section TableReader.

Lemma reader_ret {A} (a : A) : table_reader (ret a).
Proof. intros s. split; reflexivity. Qed.

Lemma reader_lift {A} (o : outcome A) : table_reader (lift o).
Proof. intros s. split; reflexivity. Qed.

Lemma reader_warn (msg : string) : table_reader (warn msg).
Proof. intros s. split; reflexivity. Qed.

Lemma reader_lookup_loc (ids : list Z) : table_reader (lookup_loc ids).
Proof.
  intros s. split; [reflexivity|].
  intros s' E. unfold lookup_loc. cbn [fst]. now rewrite E.
Qed.

Lemma reader_bind {A B} (m : M A) (k : A -> M B) :
  table_reader m -> (forall a, table_reader (k a)) -> table_reader (bind m k).
Proof.
  intros Hm Hk s. destruct (Hm s) as [Hm1 Hm2]. split.
  - unfold bind. destruct (m s) as [[a|e] s1] eqn:E; cbn [snd] in *.
    + rewrite <- Hm1. apply (Hk a s1).
    + assumption.
  - intros s' Es. specialize (Hm2 s' Es).
    destruct (Hm s') as [Hm1' _].
    unfold bind.
    destruct (m s) as [o s1]; destruct (m s') as [o' s1'];
      cbn [fst snd] in *. subst o'.
    destruct o as [a|e]; [|reflexivity].
    apply (Hk a s1). congruence.
Qed.

Lemma reader_properties (pdgs : list Z) (props : list string) :
  table_reader (properties pdgs props).
Proof.
  unfold properties, Numpy.unique.
  repeat first
    [ apply reader_bind; [|intros ?]
    | apply reader_lookup_loc
    | apply reader_lift
    | apply reader_ret
    | match goal with
      | |- table_reader (if ?c then _ else _) => destruct c
      end
    | apply reader_warn ].
Qed.

End TableReader.

(* ================================================================= *)
(** * A sample service *)

Section Sample.

Lemma sample_table_loaded : loaded sample_table.
Proof.
  unfold loaded. repeat split.
  - now apply distinct_NoDup.
  - intros H. now apply mem_str_In in H.
  - now apply mem_str_In.
Qed.

Lemma sample_index_NoDup : NoDup (Pandas.index sample_table).
Proof.
  repeat constructor; simpl; intuition discriminate.
Qed.

Lemma incl_index (l l' : list Z) :
  forallb (fun c => Pandas.mem_Z c l') l = true -> incl l l'.
Proof.
  intros H c Hc. rewrite forallb_forall in H. now apply mem_Z_In, H.
Qed.

Lemma incl_columns (l l' : list string) :
  forallb (fun p => Pandas.mem_str p l') l = true -> incl l l'.
Proof.
  intros H p Hp. rewrite forallb_forall in H. now apply mem_str_In, H.
Qed.

Lemma not_in_index (c : Z) (l : list Z) :
  Pandas.mem_Z c l = false -> ~ In c l.
Proof. intros H Hin. apply mem_Z_In in Hin. congruence. Qed.

Lemma repeated_props (l : list string) :
  Pandas.distinct l = false -> ~ NoDup l.
Proof. intros H Hnd. apply distinct_NoDup in Hnd. congruence. Qed.

End Sample.

(* ================================================================= *)
(** * The query method [properties] *)

(** C1, as the code has it.  On a table with distinct codes, for codes
    the table has and pairwise distinct properties it has, row [i] of
    the result is the record of [codes[i]] projected to [props]; for
    [codes = [c1, c2, c1]] rows 0 and 2 are one and the same row, the
    only row of the query [[c1]]. *)
Theorem properties_rows_follow_input
    (s : service) (codes : list Z) (props : list string) :
  loaded (lookup s) ->
  NoDup (Pandas.index (lookup s)) ->
  incl codes (Pandas.index (lookup s)) ->
  incl props (Pandas.columns (lookup s)) ->
  NoDup props ->
  exists res,
    fst (properties codes props s) = Return res
    /\ (forall i c, nth_error codes i = Some c ->
          exists cells,
            record (lookup s) c = Some cells
            /\ nth_error (Pandas.records res) i
               = Some (project (lookup s) props cells))
    /\ (forall c1 c2, codes = [c1; c2; c1] ->
          exists row,
            nth_error (Pandas.records res) 0 = Some row
            /\ nth_error (Pandas.records res) 2 = Some row
            /\ fst (properties [c1] props s)
               = Return {| Pandas.names := props; Pandas.records := [row] |}).
Proof.
  intros Hl Hnd Hcodes Hprops Hndp.
  rewrite (properties_run s codes props Hl Hcodes Hprops Hndp). cbn [fst].
  eexists. split; [reflexivity|]. cbn [Pandas.records].
  assert (Hrow : forall i c, nth_error codes i = Some c ->
            exists cells,
              record (lookup s) c = Some cells
              /\ nth_error
                   (map (fun c0 =>
                      project (lookup s) props
                        (snd (nth (Numpy.index_of c0 (Numpy.sorted_unique codes))
                                  (selected (lookup s) codes) (0, [])))) codes) i
                 = Some (project (lookup s) props cells)).
  { intros i c Hi.
    destruct (selected_record (lookup s) codes c Hnd Hcodes)
      as (cells & Hrec & Hsel); [eapply nth_error_In, Hi|].
    exists cells. split; [assumption|].
    rewrite nth_error_map, Hi. cbn [option_map]. now rewrite Hsel. }
  split; [exact Hrow|].
  intros c1 c2 E.
  destruct (Hrow 0%nat c1) as (cells & Hrec & H0); [now rewrite E|].
  destruct (Hrow 2%nat c1) as (cells' & Hrec' & H2); [now rewrite E|].
  assert (cells' = cells) by congruence. subst cells'.
  exists (project (lookup s) props cells).
  split; [assumption|]. split; [assumption|].
  assert (Hc1 : incl [c1] (Pandas.index (lookup s))).
  { intros c [<-|[]]. apply Hcodes. rewrite E. now left. }
  rewrite (properties_run s [c1] props Hl Hc1 Hprops Hndp). cbn [fst map].
  destruct (selected_record (lookup s) [c1] c1 Hnd Hc1)
    as (cells1 & Hrec1 & Hsel1); [now left|].
  rewrite Hsel1. cbn [snd]. congruence.
Qed.

Lemma properties_rows_follow_input_sample :
  exists res,
    fst (properties [2212; 22; 2212] ["name"; "mass"] (fresh sample_table))
    = Return res
    /\ (forall i c, nth_error [2212; 22; 2212] i = Some c ->
          exists cells,
            record sample_table c = Some cells
            /\ nth_error (Pandas.records res) i
               = Some (project sample_table ["name"; "mass"] cells))
    /\ (forall c1 c2, [2212; 22; 2212] = [c1; c2; c1] ->
          exists row,
            nth_error (Pandas.records res) 0 = Some row
            /\ nth_error (Pandas.records res) 2 = Some row
            /\ fst (properties [c1] ["name"; "mass"] (fresh sample_table))
               = Return {| Pandas.names := ["name"; "mass"];
                           Pandas.records := [row] |}).
Proof.
  apply (properties_rows_follow_input (fresh sample_table)
           [2212; 22; 2212] ["name"; "mass"]).
  - exact sample_table_loaded.
  - exact sample_index_NoDup.
  - apply incl_index. reflexivity.
  - apply incl_columns. reflexivity.
  - apply distinct_NoDup. reflexivity.
Defined.

(** C1, as the spec has it, fails for a list of properties with a
    repeat: on codes and properties the table has, the query below
    raises [ValueError], and there is no row to compare with a record. *)
Lemma properties_rows_repeated_props_refuted :
  incl [2212; 22; 2212] (Pandas.index sample_table)
  /\ incl ["name"; "name"] (Pandas.columns sample_table)
  /\ fst (properties [2212; 22; 2212] ["name"; "name"] (fresh sample_table))
     = Raise ValueError
  /\ ~ (exists res,
          fst (properties [2212; 22; 2212] ["name"; "name"] (fresh sample_table))
          = Return res
          /\ exists cells,
               record sample_table 2212 = Some cells
               /\ nth_error (Pandas.records res) 0
                  = Some (project sample_table ["name"; "name"] cells)).
Proof.
  split; [apply incl_index; reflexivity|].
  split; [apply incl_columns; reflexivity|].
  split; [reflexivity|]. intros (res & H & _). discriminate H.
Qed.

(** C2, as the code has it.  For codes the table has and a non-empty
    list of pairwise distinct properties it has, the result has as many
    rows as [codes] has elements, whatever the length of [codes] and its
    repeats. *)
Theorem properties_length
    (s : service) (codes : list Z) (props : list string) :
  loaded (lookup s) ->
  incl codes (Pandas.index (lookup s)) ->
  incl props (Pandas.columns (lookup s)) ->
  NoDup props ->
  props <> [] ->
  exists res,
    fst (properties codes props s) = Return res
    /\ length (Pandas.records res) = length codes.
Proof.
  intros Hl Hcodes Hprops Hndp _.
  rewrite (properties_run s codes props Hl Hcodes Hprops Hndp). cbn [fst].
  eexists. split; [reflexivity|]. cbn [Pandas.records]. apply length_map.
Qed.

Lemma properties_length_sample :
  exists res,
    fst (properties [22; 22; 11; 22; 2212; 11] ["charge"]
           (fresh sample_table)) = Return res
    /\ length (Pandas.records res) = 6%nat.
Proof.
  apply (properties_length (fresh sample_table)
           [22; 22; 11; 22; 2212; 11] ["charge"]).
  - exact sample_table_loaded.
  - apply incl_index. reflexivity.
  - apply incl_columns. reflexivity.
  - apply distinct_NoDup. reflexivity.
  - discriminate.
Defined.

(** C2, as the spec has it, fails for a list of properties with a
    repeat: the query below, on codes and properties the table has,
    raises [ValueError] and returns no result of the length of its
    codes. *)
Lemma properties_length_repeated_props_refuted :
  incl [22; 11; 22] (Pandas.index sample_table)
  /\ incl ["mass"; "name"; "mass"] (Pandas.columns sample_table)
  /\ fst (properties [22; 11; 22] ["mass"; "name"; "mass"] (fresh sample_table))
     = Raise ValueError
  /\ ~ (exists res,
          fst (properties [22; 11; 22] ["mass"; "name"; "mass"]
                 (fresh sample_table)) = Return res
          /\ length (Pandas.records res) = 3%nat).
Proof.
  split; [apply incl_index; reflexivity|].
  split; [apply incl_columns; reflexivity|].
  split; [reflexivity|]. intros (res & H & _). discriminate H.
Qed.

(** C4.  When a code of the query is not in the table, the call raises
    [KeyError] (the spec's UnknownPdgCode) carrying exactly the codes of
    the query that the table lacks; it returns no result, warns nothing
    and leaves the table as it was. *)
Theorem properties_unknown_code
    (s : service) (codes : list Z) (props : list string) (c : Z) :
  In c codes ->
  ~ In c (Pandas.index (lookup s)) ->
  exists missing,
    fst (properties codes props s) = Raise (KeyError (map LInt missing))
    /\ In c missing
    /\ (forall i, In i missing <->
                  In i codes /\ ~ In i (Pandas.index (lookup s)))
    /\ lookup (snd (properties codes props s)) = lookup s
    /\ warned (snd (properties codes props s)) = warned s.
Proof.
  intros Hc Hn.
  destruct (properties_run_unknown s codes props c Hc Hn)
    as (missing & Hrun & Hin & Hall).
  exists missing. rewrite Hrun. cbn [fst snd lookup warned].
  split; [reflexivity|]. split; [assumption|]. split; [exact Hall|].
  split; reflexivity.
Qed.

Lemma properties_unknown_code_sample :
  exists missing,
    fst (properties [22; 999999999; 11] ["name"] (fresh sample_table))
    = Raise (KeyError (map LInt missing))
    /\ In 999999999 missing
    /\ (forall i, In i missing <->
                  In i [22; 999999999; 11]
                  /\ ~ In i (Pandas.index (lookup (fresh sample_table))))
    /\ lookup (snd (properties [22; 999999999; 11] ["name"]
                      (fresh sample_table))) = lookup (fresh sample_table)
    /\ warned (snd (properties [22; 999999999; 11] ["name"]
                      (fresh sample_table))) = warned (fresh sample_table).
Proof.
  apply (properties_unknown_code (fresh sample_table)
           [22; 999999999; 11] ["name"] 999999999).
  - right. left. reflexivity.
  - apply not_in_index. reflexivity.
Defined.

Section WarningFacts.

Lemma selected_In (tbl : Pandas.DataFrame) (pdgs : list Z) (r : Z * list value) :
  In r (selected tbl pdgs) <-> In r (Pandas.rows tbl) /\ In (fst r) pdgs.
Proof.
  unfold selected, Pandas.rows_at. rewrite in_flat_map. split.
  - intros (c & Hc & Hr). apply filter_In in Hr as [Hr E].
    apply Z.eqb_eq in E. subst c. split; [assumption|].
    now apply sorted_unique_In.
  - intros [Hr Hc]. exists (fst r). split; [now apply sorted_unique_In|].
    apply filter_In. split; [assumption|apply Z.eqb_refl].
Qed.

Lemma issuperset_false (set props : list string) :
  issuperset set props = false <-> exists p, In p props /\ ~ In p set.
Proof.
  unfold issuperset. induction props as [|p props IH]; cbn [forallb].
  - split; [discriminate|]. intros (p & [] & _).
  - rewrite andb_false_iff, IH. split.
    + intros [H|(q & Hq & Hn)].
      * exists p. split; [now left|]. intros Hin.
        apply mem_str_In in Hin. congruence.
      * exists q. split; [now right|assumption].
    + intros (q & [->|Hq] & Hn).
      * left. destruct (Pandas.mem_str q set) eqn:E; [|reflexivity].
        apply mem_str_In in E. contradiction.
      * right. now exists q.
Qed.

Lemma needs_warning_iff (tbl : Pandas.DataFrame) (pdgs : list Z)
    (props : list string) :
  needs_warning tbl pdgs props = true
  <-> fallback_hit tbl pdgs /\ beyond_fallback props.
Proof.
  unfold needs_warning, fallback_hit, beyond_fallback.
  rewrite andb_true_iff, negb_true_iff, issuperset_false, existsb_exists.
  apply and_iff_compat_r. split.
  - intros ([c cells] & Hr & Hf). apply selected_In in Hr as [Hr Hc].
    now exists c, cells.
  - intros (c & cells & Hc & Hr & Hf). exists (c, cells).
    split; [|assumption]. apply selected_In. now split.
Qed.

(** The warnings of a query on known codes, whatever the properties:
    the warning is decided, and issued, before the properties are
    looked at. *)
Lemma properties_warned_known
    (s : service) (pdgs : list Z) (props : list string) :
  loaded (lookup s) ->
  incl pdgs (Pandas.index (lookup s)) ->
  warned (snd (properties pdgs props s))
  = warned s ++ (if needs_warning (lookup s) pdgs props
                 then [pythia_message] else []).
Proof.
  intros (Hid & Hnd & Hno & Hpy) Hcodes.
  unfold properties, Numpy.unique, needs_warning, selected.
  set (u := Numpy.sorted_unique pdgs).
  assert (Hu : incl u (Pandas.index (lookup s))).
  { intros c Hc. apply Hcodes. now apply sorted_unique_In. }
  rewrite (run_lookup_loc _ _ _ Hu).
  rewrite (getitem_pythia _ _ Hnd Hpy), run_lift_return, any_flags.
  match goal with
  | |- context [if ?c then warn _ else ret tt] => destruct c
  end;
    [rewrite run_warn|rewrite run_ret];
    cbn [lookup warned lookups];
    rewrite run_lookup_loc by exact Hu; cbn [lookup warned lookups];
    (destruct (Pandas.getitems _ props) as [a1|e];
       [rewrite run_lift_return|rewrite run_lift_raise];
       [destruct (Pandas.to_records a1) as [a2|e];
          [rewrite run_lift_return|rewrite run_lift_raise];
          [destruct (Numpy.take _ _) as [a3|e];
             [rewrite run_lift_return|rewrite run_lift_raise]| ] | ]);
    cbn [snd ret warned]; now rewrite ?app_nil_r.
Qed.

(** The outcome of a query on known codes one of whose properties is
    not a column. *)
Lemma properties_fails_unknown_prop
    (s : service) (pdgs : list Z) (props : list string) (p : string) :
  loaded (lookup s) ->
  incl pdgs (Pandas.index (lookup s)) ->
  In p props -> ~ In p (Pandas.columns (lookup s)) ->
  exists missing,
    fst (properties pdgs props s) = Raise (KeyError (map LStr missing))
    /\ In p missing.
Proof.
  intros (Hid & Hnd & Hno & Hpy) Hcodes Hp Hn.
  set (u := Numpy.sorted_unique pdgs).
  assert (Hu : incl u (Pandas.index (lookup s))).
  { intros c Hc. apply Hcodes. now apply sorted_unique_In. }
  destruct (getitems_unknown
              {| Pandas.index_name := Pandas.index_name (lookup s);
                 Pandas.columns := Pandas.columns (lookup s);
                 Pandas.rows := flat_map (Pandas.rows_at (lookup s)) u |}
              props p Hp Hn) as (missing & Hget & Hin).
  exists missing. split; [|exact Hin].
  unfold properties, Numpy.unique. fold u.
  rewrite (run_lookup_loc _ _ _ Hu).
  rewrite (getitem_pythia _ _ Hnd Hpy), run_lift_return.
  match goal with
  | |- context [if ?c then warn _ else ret tt] => destruct c
  end;
    [rewrite run_warn|rewrite run_ret];
    cbn [lookup warned lookups];
    rewrite run_lookup_loc by exact Hu; cbn [lookup warned lookups];
    rewrite Hget, run_lift_raise; reflexivity.
Qed.

End WarningFacts.

(** C5, as the code has it.  On codes the table has, [properties]
    warns if and only if some code of the query has a record with the
    fallback flag set and some requested property is outside name,
    charge, mass and width, whatever else the properties are.  Warned or
    not, the call returns the result, one row per code and one column
    per property, when the properties are pairwise distinct columns of
    the table; when they are columns and one is repeated it raises
    [ValueError], and when one is not a column it raises [KeyError],
    in both cases after the warning has been issued. *)
Theorem properties_warns_iff
    (s : service) (codes : list Z) (props : list string) :
  loaded (lookup s) ->
  incl codes (Pandas.index (lookup s)) ->
  (fallback_hit (lookup s) codes /\ beyond_fallback props
   <-> warned (snd (properties codes props s)) = warned s ++ [pythia_message])
  /\ (~ (fallback_hit (lookup s) codes /\ beyond_fallback props)
      <-> warned (snd (properties codes props s)) = warned s)
  /\ (incl props (Pandas.columns (lookup s)) -> NoDup props ->
      exists res,
        fst (properties codes props s) = Return res
        /\ Pandas.names res = props
        /\ length (Pandas.records res) = length codes)
  /\ (incl props (Pandas.columns (lookup s)) -> ~ NoDup props ->
      fst (properties codes props s) = Raise ValueError)
  /\ (forall p, In p props -> ~ In p (Pandas.columns (lookup s)) ->
      exists missing,
        fst (properties codes props s) = Raise (KeyError (map LStr missing))
        /\ In p missing).
Proof.
  intros Hl Hcodes.
  rewrite (properties_warned_known s codes props Hl Hcodes).
  rewrite <- needs_warning_iff.
  split; [|split; [|split; [|split]]].
  - destruct (needs_warning (lookup s) codes props).
    + tauto.
    + rewrite app_nil_r. split; [discriminate|]. intros E.
      rewrite <- (app_nil_r (warned s)) in E at 1.
      apply app_inv_head in E. discriminate E.
  - destruct (needs_warning (lookup s) codes props).
    + split; [congruence|]. intros E.
      rewrite <- (app_nil_r (warned s)) in E at 2.
      apply app_inv_head in E. discriminate E.
    + rewrite app_nil_r. split; [reflexivity|discriminate].
  - intros Hprops Hndp.
    rewrite (properties_run s codes props Hl Hcodes Hprops Hndp). cbn [fst].
    eexists. split; [reflexivity|]. split; [reflexivity|].
    cbn [Pandas.records]. apply length_map.
  - intros Hprops Hrep. now apply properties_run_repeated.
  - intros p Hp Hn. now apply (properties_fails_unknown_prop s codes props p).
Qed.

Lemma properties_warns_iff_sample :
  (fallback_hit sample_table [2212; 9900041; 2212]
   /\ beyond_fallback ["name"; "quarks"]
   <-> warned (snd (properties [2212; 9900041; 2212] ["name"; "quarks"]
                      (fresh sample_table))) = [] ++ [pythia_message])
  /\ (~ (fallback_hit sample_table [2212; 9900041; 2212]
         /\ beyond_fallback ["name"; "quarks"])
      <-> warned (snd (properties [2212; 9900041; 2212] ["name"; "quarks"]
                         (fresh sample_table))) = [])
  /\ (exists res,
        fst (properties [2212; 9900041; 2212] ["name"; "quarks"]
               (fresh sample_table)) = Return res
        /\ Pandas.names res = ["name"; "quarks"]
        /\ length (Pandas.records res) = 3%nat)
  /\ fst (properties [2212; 9900041; 2212] ["quarks"; "quarks"]
            (fresh sample_table)) = Raise ValueError
  /\ (exists missing,
        fst (properties [2212; 9900041; 2212] ["name"; "spin"]
               (fresh sample_table)) = Raise (KeyError (map LStr missing))
        /\ In "spin" missing).
Proof.
  destruct (properties_warns_iff (fresh sample_table)
              [2212; 9900041; 2212] ["name"; "quarks"])
    as (Hw & Hnw & Hret & _ & _);
    [exact sample_table_loaded|apply incl_index; reflexivity|].
  destruct (properties_warns_iff (fresh sample_table)
              [2212; 9900041; 2212] ["quarks"; "quarks"])
    as (_ & _ & _ & Hrep & _);
    [exact sample_table_loaded|apply incl_index; reflexivity|].
  destruct (properties_warns_iff (fresh sample_table)
              [2212; 9900041; 2212] ["name"; "spin"])
    as (_ & _ & _ & _ & Hunk);
    [exact sample_table_loaded|apply incl_index; reflexivity|].
  split; [exact Hw|]. split; [exact Hnw|]. split.
  - apply Hret; [apply incl_columns|apply distinct_NoDup]; reflexivity.
  - split.
    + apply Hrep; [apply incl_columns|apply repeated_props]; reflexivity.
    + apply (Hunk "spin"); [right; left; reflexivity|].
      intros H. apply mem_str_In in H. discriminate H.
Defined.

(** C5, as the spec has it, fails for a list of properties with a
    repeat: the query below, on a code of the fallback source and a
    property the table has, issues the warning and then raises
    [ValueError] instead of returning a result. *)
Lemma properties_warning_then_error :
  incl [9900041] (Pandas.index sample_table)
  /\ incl ["quarks"; "quarks"] (Pandas.columns sample_table)
  /\ warned (snd (properties [9900041] ["quarks"; "quarks"] (fresh sample_table)))
     = [pythia_message]
  /\ fst (properties [9900041] ["quarks"; "quarks"] (fresh sample_table))
     = Raise ValueError
  /\ ~ (exists res,
          fst (properties [9900041] ["quarks"; "quarks"] (fresh sample_table))
          = Return res).
Proof.
  split; [apply incl_index; reflexivity|].
  split; [apply incl_columns; reflexivity|].
  split; [reflexivity|]. split; [reflexivity|].
  intros (res & H). discriminate H.
Qed.




(** C8.  A query leaves the table as it found it, and the same query
    asked again of the service returns the same outcome. *)
Theorem properties_reads_only
    (s : service) (codes : list Z) (props : list string) :
  lookup (snd (properties codes props s)) = lookup s
  /\ fst (properties codes props (snd (properties codes props s)))
     = fst (properties codes props s).
Proof.
  destruct (reader_properties codes props s) as [Hkeep Hsame].
  split; [exact Hkeep|]. apply Hsame, Hkeep.
Qed.

(** C9, as the code has it.  A query on codes the table has looks the
    distinct codes up in the index twice, once for the fallback flags
    and once for the projection, each time the sorted distinct codes
    and never the input elements one by one; a query with a code the
    table lacks stops at the first of the two lookups. *)
Theorem properties_lookup_passes
    (s : service) (codes : list Z) (props : list string) :
  loaded (lookup s) ->
  (incl codes (Pandas.index (lookup s)) ->
   lookups (snd (properties codes props s))
   = lookups s ++ [Numpy.sorted_unique codes; Numpy.sorted_unique codes])
  /\ (forall c, In c codes -> ~ In c (Pandas.index (lookup s)) ->
      lookups (snd (properties codes props s))
      = lookups s ++ [Numpy.sorted_unique codes]).
Proof.
  intros Hl. split.
  - intros Hcodes. now apply properties_lookups_known.
  - intros c Hc Hn.
    destruct (properties_run_unknown s codes props c Hc Hn)
      as (missing & Hrun & _).
    now rewrite Hrun.
Qed.

Lemma properties_lookup_passes_sample :
  lookups (snd (properties [22; 22; 11; 22] ["name"] (fresh sample_table)))
  = [] ++ [Numpy.sorted_unique [22; 22; 11; 22];
           Numpy.sorted_unique [22; 22; 11; 22]]
  /\ lookups (snd (properties [22; 999999999; 22] ["name"] (fresh sample_table)))
     = [] ++ [Numpy.sorted_unique [22; 999999999; 22]].
Proof.
  split.
  - apply (properties_lookup_passes (fresh sample_table)
             [22; 22; 11; 22] ["name"]).
    + exact sample_table_loaded.
    + apply incl_index. reflexivity.
  - apply (properties_lookup_passes (fresh sample_table)
             [22; 999999999; 22] ["name"] sample_table_loaded) with 999999999.
    + right. left. reflexivity.
    + apply not_in_index. reflexivity.
Defined.

(** C9, as the spec has it, fails: the query below makes two lookup
    passes, not one. *)
Lemma properties_single_pass_refuted :
  lookups (snd (properties [22; 22; 11; 22] ["name"] (fresh sample_table)))
  = [[11; 22]; [11; 22]]
  /\ length (lookups (snd (properties [22; 22; 11; 22] ["name"]
                            (fresh sample_table)))) <> 1%nat.
Proof.
  split; [reflexivity|]. discriminate.
Qed.

(* ================================================================= *)
(** * Further properties of [frac] *)

Section FracOutcomes.

Import Fractions.

Lemma normalize_outcome (n d : Z) :
  (d = 0 /\ normalize n d = Raise ZeroDivisionError)
  \/ (d <> 0 /\ exists q, normalize n d = Return q).
Proof.
  unfold normalize. destruct (Z.eqb_spec d 0) as [->|Hd].
  - left. now split.
  - right. split; [assumption|]. eexists. reflexivity.
Qed.

Lemma Fraction_of_match (s : string) (m : groups) :
  matches (list_ascii_of_string s) m ->
  Fraction s = normalize (fst (ratio_of_groups m)) (snd (ratio_of_groups m)).
Proof.
  intros H. apply rational_format_complete in H. unfold Fraction.
  rewrite H. now destruct (ratio_of_groups m).
Qed.

(** [Fraction] returns, or raises one of two errors. *)
Lemma Fraction_outcome (s : string) :
  (exists m q, matches (list_ascii_of_string s) m
               /\ snd (ratio_of_groups m) <> 0 /\ Fraction s = Return q)
  \/ (exists m, matches (list_ascii_of_string s) m
                /\ snd (ratio_of_groups m) = 0
                /\ Fraction s = Raise ZeroDivisionError)
  \/ ((forall m, ~ matches (list_ascii_of_string s) m)
      /\ Fraction s = Raise ValueError).
Proof.
  destruct (rational_format (list_ascii_of_string s)) as [m|] eqn:E.
  - apply rational_format_sound in E.
    rewrite (Fraction_of_match s m E).
    destruct (normalize_outcome (fst (ratio_of_groups m)) (snd (ratio_of_groups m)))
      as [[Hd Hn]|[Hd [q Hn]]].
    + right. left. exists m. now rewrite Hn.
    + left. exists m, q. now rewrite Hn.
  - right. right.
    assert (H : Fraction s = Raise ValueError) by (unfold Fraction; now rewrite E).
    split; [now apply Fraction_ValueError|assumption].
Qed.

(** [float] of a fraction returns, or overflows. *)
Lemma to_float_outcome (q : Q) :
  (exists f, to_float q = Return f) \/ to_float q = Raise OverflowError.
Proof.
  unfold to_float. destruct (Qnum q) as [|n|n].
  - left. eexists. reflexivity.
  - destruct (SFdiv prec emax _ _); try (left; eexists; reflexivity).
    now right.
  - destruct (SFdiv prec emax _ _); try (left; eexists; reflexivity).
    now right.
Qed.

(** Outside the handler, [frac] is the cast. *)
Lemma frac_is_cast (num_str : string) (obj_mode : bool) :
  cast_frac obj_mode num_str <> Raise ValueError ->
  frac num_str obj_mode = cast_frac obj_mode num_str.
Proof.
  intros H. unfold frac.
  destruct (cast_frac obj_mode num_str) as [v|e]; [reflexivity|].
  destruct e; try reflexivity. now elim H.
Qed.

Lemma cast_frac_returned (num_str : string) (obj_mode : bool) (q : Q) :
  Fraction num_str = Return q ->
  cast_frac obj_mode num_str
  = if obj_mode then Return (VFraction q)
    else obind (to_float q) (fun f => Return (VFloat f)).
Proof. intros H. unfold cast_frac. rewrite H. now destruct obj_mode. Qed.

Lemma frac_returned (num_str : string) (obj_mode : bool) (q : Q) :
  Fraction num_str = Return q ->
  frac num_str obj_mode
  = if obj_mode then Return (VFraction q)
    else obind (to_float q) (fun f => Return (VFloat f)).
Proof.
  intros H. rewrite frac_is_cast; rewrite (cast_frac_returned _ _ _ H).
  - reflexivity.
  - destruct obj_mode; [discriminate|].
    destruct (to_float_outcome q) as [[f ->]| ->]; discriminate.
Qed.

Lemma frac_rejected (num_str : string) (obj_mode : bool) :
  Fraction num_str = Raise ValueError ->
  frac num_str obj_mode
  = if String.eqb num_str "" then
      (if obj_mode then Return (VFraction (0 # 1)) else Return (VFloat float_zero))
    else if String.eqb num_str "?" then Return np_nan
    else Return VNone.
Proof.
  intros H. unfold frac. rewrite (cast_frac_raises _ obj_mode _ H).
  destruct (String.eqb num_str ""); [now destruct obj_mode|reflexivity].
Qed.

End FracOutcomes.

(** Float mode is exact mode followed by the conversion to [float]:
    whatever the string, [frac(s)] is [float(q)] when [frac(s, True)] is
    a fraction [q], and is what [frac(s, True)] is otherwise, be it
    [np.nan], [None] or an error. *)
Theorem frac_float_mode_of_exact_mode (num_str : string) :
  frac num_str false
  = match frac num_str true with
    | Return (VFraction q) =>
        obind (Fractions.to_float q) (fun f => Return (VFloat f))
    | r => r
    end.
Proof.
  destruct (Fraction_outcome num_str)
    as [(m & q & _ & _ & H)|[(m & _ & _ & H)|(_ & H)]].
  - now rewrite !(frac_returned _ _ _ H).
  - rewrite !(frac_cast_raises _ _ _ (cast_frac_raises _ _ _ H));
      [reflexivity|discriminate|discriminate].
  - rewrite !(frac_rejected _ _ H).
    destruct (String.eqb num_str ""); [reflexivity|].
    destruct (String.eqb num_str "?"); reflexivity.
Qed.

(** [frac] never raises [ValueError], whatever its docstring says: an
    error of [frac] is [ZeroDivisionError] or, in float mode only,
    [OverflowError]; and a value of [frac] is a float or [None] in float
    mode, a fraction, [np.nan] or [None] in exact mode. *)
Theorem frac_outcomes (num_str : string) (obj_mode : bool) :
  match frac num_str obj_mode with
  | Raise e =>
      e = ZeroDivisionError \/ (obj_mode = false /\ e = OverflowError)
  | Return (VFloat f) => obj_mode = false \/ (num_str = "?" /\ f = S754_nan)
  | Return (VFraction _) => obj_mode = true
  | Return VNone => True
  | Return _ => False
  end.
Proof.
  destruct (Fraction_outcome num_str)
    as [(m & q & _ & _ & H)|[(m & _ & _ & H)|(_ & H)]].
  - rewrite (frac_returned _ _ _ H). destruct obj_mode; [reflexivity|].
    destruct (to_float_outcome q) as [[f ->]| ->]; cbn [obind]; auto.
  - rewrite (frac_cast_raises _ _ _ (cast_frac_raises _ _ _ H));
      [now left|discriminate].
  - rewrite (frac_rejected _ _ H).
    destruct (String.eqb_spec num_str "") as [->|_].
    + destruct obj_mode; [reflexivity|now left].
    + destruct (String.eqb_spec num_str "?") as [->|_]; [|exact I].
      cbn. destruct obj_mode; [right|left]; auto.
Qed.

Section FracValues.

Import Fractions.

Lemma int_of_digits_from_nonneg (l : list ascii) (acc : Z) :
  all is_digit l -> 0 <= acc ->
  0 <= fold_left (fun acc c => 10 * acc + (Z.of_nat (nat_of_ascii c) - 48)) l acc.
Proof.
  intros H. revert acc. induction H as [|c l Hc _ IH]; intros acc Hacc;
    cbn [fold_left]; [assumption|].
  apply IH. unfold is_digit in Hc. apply andb_prop in Hc as [H1 _].
  apply Nat.leb_le in H1. lia.
Qed.

Lemma int_of_digits_nonneg (l : list ascii) :
  all is_digit l -> 0 <= int_of_digits l.
Proof. intros H. now apply int_of_digits_from_nonneg. Qed.

(** The reduction of a fraction with a positive denominator keeps its
    value and leaves it in lowest terms. *)
Lemma normalize_positive (n d : Z) :
  0 < d ->
  exists q,
    normalize n d = Return q
    /\ Qnum q * d = n * Zpos (Qden q)
    /\ Z.gcd (Qnum q) (Zpos (Qden q)) = 1.
Proof.
  intros Hd. unfold normalize.
  destruct (Z.eqb_spec d 0) as [E|_]; [lia|].
  destruct (Z.ltb_spec d 0) as [E|_]; [lia|].
  set (g := Z.gcd n d).
  assert (Hg : 0 < g).
  { pose proof (Z.gcd_nonneg n d) as H0.
    assert (g <> 0) by (unfold g; rewrite Z.gcd_eq_0; lia). unfold g in *. lia. }
  destruct (Z.gcd_divide_l n d) as [k Hk].
  destruct (Z.gcd_divide_r n d) as [k' Hk']. fold g in Hk, Hk'.
  assert (Hn : n / g = k) by (rewrite Hk; apply Z.div_mul; lia).
  assert (Hd' : d / g = k') by (rewrite Hk'; apply Z.div_mul; lia).
  assert (Hk'pos : 0 < k') by nia.
  eexists. split; [reflexivity|]. cbn [Qnum Qden].
  rewrite Hn, Hd', Z2Pos.id by assumption. split.
  - clearbody g. subst n d. ring.
  - rewrite <- Hn, <- Hd'. apply Z.gcd_div_gcd; [lia|reflexivity].
Qed.

Lemma lookahead_digits (a rest : list ascii) :
  a <> [] -> all is_digit a -> lookahead (a ++ rest) = true.
Proof.
  intros Hne Ha. destruct Ha as [|c a Hc _]; [now elim Hne|].
  cbn [app lookahead]. now rewrite Hc.
Qed.

Lemma matches_quotient (sg a b : list ascii) :
  opt_sign sg -> a <> [] -> all is_digit a -> b <> [] -> all is_digit b ->
  matches (sg ++ a ++ "/"%char :: b)
          {| g_sign := sg; g_num := a; g_denom := Some b;
             g_decimal := None; g_exp := None |}.
Proof.
  intros Hsg Hne Ha Hnb Hb. exists [], ("/"%char :: b), [].
  cbn [g_sign g_num app]. rewrite !app_nil_r.
  repeat split; try assumption; try constructor; try assumption;
    try reflexivity.
  now apply lookahead_digits.
Qed.

Lemma matches_integer (sg a : list ascii) :
  opt_sign sg -> a <> [] -> all is_digit a ->
  matches (sg ++ a)
          {| g_sign := sg; g_num := a; g_denom := None;
             g_decimal := None; g_exp := None |}.
Proof.
  intros Hsg Hne Ha. exists [], [], [].
  cbn [g_sign g_num app]. rewrite !app_nil_r.
  repeat split; try assumption; try constructor.
  - rewrite <- (app_nil_r a). now apply lookahead_digits.
  - apply (tail_decimal _ [] []); cbn; constructor.
Qed.

Lemma Fraction_of_list_match (l : list ascii) (m : groups) :
  matches l m ->
  Fraction (string_of_list_ascii l)
  = normalize (fst (ratio_of_groups m)) (snd (ratio_of_groups m)).
Proof.
  intros H. apply Fraction_of_match.
  now rewrite list_ascii_of_string_of_list_ascii.
Qed.

Lemma Fraction_integer_string (sg a : list ascii) :
  opt_sign sg -> a <> [] -> all is_digit a ->
  Fraction (string_of_list_ascii (sg ++ a))
  = Return (signed_int sg (int_of_digits a) # 1).
Proof.
  intros Hsg Hne Ha.
  rewrite (Fraction_of_list_match _ _ (matches_integer sg a Hsg Hne Ha)).
  unfold ratio_of_groups, signed_int. cbn [g_sign g_num g_denom g_decimal g_exp nonempty].
  destruct (list_eq_dec ascii_dec sg ["-"%char]); cbn [fst snd];
    unfold normalize; cbn [Z.eqb Z.ltb Z.compare];
    rewrite Z.gcd_1_r, Z.div_1_r; reflexivity.
Qed.

End FracValues.

(** In exact mode a quotient of two digit strings, with or without a
    sign, is returned as the fraction of that value, in lowest terms and
    with the sign on the numerator. *)
Theorem frac_exact_quotient (sg a b : list ascii) :
  Fractions.opt_sign sg ->
  a <> [] -> Fractions.all Fractions.is_digit a ->
  b <> [] -> Fractions.all Fractions.is_digit b ->
  Fractions.int_of_digits b <> 0 ->
  exists q,
    frac (string_of_list_ascii (sg ++ a ++ "/"%char :: b)) true
    = Return (VFraction q)
    /\ Qnum q * Fractions.int_of_digits b
       = signed_int sg (Fractions.int_of_digits a) * Zpos (Qden q)
    /\ Z.gcd (Qnum q) (Zpos (Qden q)) = 1.
Proof.
  intros Hsg Hne Ha Hnb Hb Hnz.
  pose proof (Fraction_of_list_match _ _ (matches_quotient sg a b Hsg Hne Ha Hnb Hb))
    as HF.
  assert (Hr : Fractions.ratio_of_groups
                 {| Fractions.g_sign := sg; Fractions.g_num := a;
                    Fractions.g_denom := Some b;
                    Fractions.g_decimal := None; Fractions.g_exp := None |}
               = (signed_int sg (Fractions.int_of_digits a),
                  Fractions.int_of_digits b)).
  { unfold Fractions.ratio_of_groups, signed_int.
    cbn [Fractions.g_sign Fractions.g_num Fractions.g_denom].
    destruct b as [|c b]; [now elim Hnb|]. cbn [Fractions.nonempty].
    now destruct (list_eq_dec ascii_dec sg ["-"%char]). }
  rewrite Hr in HF. cbn [fst snd] in HF.
  pose proof (int_of_digits_nonneg b Hb) as H0.
  destruct (normalize_positive (signed_int sg (Fractions.int_of_digits a))
              (Fractions.int_of_digits b)) as (q & Hq & Hval & Hgcd); [lia|].
  exists q. rewrite Hq in HF. rewrite (frac_returned _ true _ HF).
  now split.
Qed.

Lemma frac_exact_quotient_minus_6_8 :
  exists q,
    frac "-6/8" true = Return (VFraction q)
    /\ Qnum q * 8 = signed_int ["-"%char] 6 * Zpos (Qden q)
    /\ Z.gcd (Qnum q) (Zpos (Qden q)) = 1.
Proof.
  apply (frac_exact_quotient ["-"%char] ["6"%char] ["8"%char]).
  - right. left. reflexivity.
  - discriminate.
  - repeat constructor.
  - discriminate.
  - repeat constructor.
  - discriminate.
Defined.

(** In exact mode a string of digits, with or without a sign, is
    returned as that integer over one; in float mode a signed string of
    zeros is the positive zero, the sign being lost. *)
Theorem frac_integer_string (sg a : list ascii) :
  Fractions.opt_sign sg ->
  a <> [] -> Fractions.all Fractions.is_digit a ->
  frac (string_of_list_ascii (sg ++ a)) true
  = Return (VFraction (signed_int sg (Fractions.int_of_digits a) # 1))
  /\ (Fractions.int_of_digits a = 0 ->
      frac (string_of_list_ascii (sg ++ a)) false = Return (VFloat float_zero)).
Proof.
  intros Hsg Hne Ha.
  pose proof (Fraction_integer_string sg a Hsg Hne Ha) as HF.
  split; [exact (frac_returned _ true _ HF)|].
  intros Hz. rewrite (frac_returned _ false _ HF), Hz.
  unfold signed_int. now destruct (list_eq_dec ascii_dec sg ["-"%char]).
Qed.

Lemma frac_integer_string_minus_0 :
  frac "-0" true = Return (VFraction (signed_int ["-"%char] 0 # 1))
  /\ frac "-0" false = Return (VFloat float_zero).
Proof.
  destruct (frac_integer_string ["-"%char] ["0"%char]) as [Hexact Hfloat].
  - right. left. reflexivity.
  - discriminate.
  - repeat constructor.
  - split; [exact Hexact|apply Hfloat; reflexivity].
Defined.

Section FracPadding.

Import Fractions.

Lemma lookahead_app (l rest : list ascii) :
  lookahead l = true -> lookahead (l ++ rest) = true.
Proof.
  destruct l as [|c [|d l]]; cbn [lookahead app]; try discriminate.
  - rewrite andb_false_r, orb_false_r. intros ->. reflexivity.
  - auto.
Qed.

Lemma all_app (p : ascii -> bool) (l l' : list ascii) :
  all p l -> all p l' -> all p (l ++ l').
Proof. intros H H'. apply Forall_app. now split. Qed.

(** Whitespace around a word of the pattern leaves its groups alone. *)
Lemma matches_padded (l a b : list ascii) (m : groups) :
  matches l m -> all is_space a -> all is_space b ->
  matches (a ++ l ++ b) m.
Proof.
  intros (ws1 & tl & ws2 & -> & Hws1 & Hsg & Hla & Hnum & Htl & Hws2) Ha Hb.
  exists (a ++ ws1), tl, (ws2 ++ b).
  split; [now rewrite <- !app_assoc|].
  split; [now apply all_app|]. split; [assumption|].
  split; [rewrite !app_assoc; apply lookahead_app; now rewrite <- !app_assoc|].
  split; [assumption|]. split; [assumption|now apply all_app].
Qed.

Lemma rational_format_spaces (ws rest : list ascii) :
  all is_space ws -> stops is_space rest ->
  lookahead (snd (match_sign rest)) = false ->
  rational_format (ws ++ rest) = None.
Proof.
  intros Hws Hstop Hla. unfold rational_format.
  rewrite (span_greedy _ _ _ Hws Hstop). cbn [snd].
  destruct (match_sign rest) as [sg s1]. cbn [snd] in Hla. now rewrite Hla.
Qed.

Lemma string_of_list_ascii_inj (l l' : list ascii) :
  string_of_list_ascii l = string_of_list_ascii l' -> l = l'.
Proof.
  intros H. apply (f_equal list_ascii_of_string) in H.
  now rewrite !list_ascii_of_string_of_list_ascii in H.
Qed.

End FracPadding.

(** Whitespace before and after a string that [Fraction] reads does not
    change what [frac] makes of it, in either mode. *)
Theorem frac_ignores_padding
    (num_str : string) (m : Fractions.groups) (a b : list ascii) (obj_mode : bool) :
  Fractions.matches (list_ascii_of_string num_str) m ->
  Fractions.all Fractions.is_space a ->
  Fractions.all Fractions.is_space b ->
  frac (string_of_list_ascii (a ++ list_ascii_of_string num_str ++ b)) obj_mode
  = frac num_str obj_mode.
Proof.
  intros Hm Ha Hb.
  pose proof (Fraction_of_list_match _ _ (matches_padded _ a b m Hm Ha Hb)) as Hpad.
  pose proof (Fraction_of_match _ _ Hm) as Hs.
  destruct (normalize_outcome (fst (Fractions.ratio_of_groups m))
                              (snd (Fractions.ratio_of_groups m)))
    as [[_ Hn]|[_ [q Hn]]]; rewrite Hn in Hpad, Hs.
  - rewrite !(frac_cast_raises _ _ ZeroDivisionError);
      solve [reflexivity | discriminate | now apply cast_frac_raises].
  - now rewrite (frac_returned _ _ _ Hpad), (frac_returned _ _ _ Hs).
Qed.

Lemma frac_ignores_padding_half :
  frac (string_of_list_ascii ([" "%char] ++ list_ascii_of_string "1/2"
                              ++ [" "%char; " "%char])) false
  = frac "1/2" false.
Proof.
  apply (frac_ignores_padding "1/2"
           {| Fractions.g_sign := []; Fractions.g_num := ["1"%char];
              Fractions.g_denom := Some ["2"%char];
              Fractions.g_decimal := None; Fractions.g_exp := None |}).
  - apply rational_format_sound. reflexivity.
  - repeat constructor.
  - repeat constructor.
Defined.

(** The two sentinels are recognised only as they stand: a cell of
    whitespace alone, or ["?"] with whitespace before or after it, is
    neither zero nor [np.nan] but [None], in either mode. *)
Theorem frac_sentinels_take_no_padding (ws : list ascii) (obj_mode : bool) :
  ws <> [] ->
  Fractions.all Fractions.is_space ws ->
  frac (string_of_list_ascii ws) obj_mode = Return VNone
  /\ frac (string_of_list_ascii (ws ++ ["?"%char])) obj_mode = Return VNone
  /\ frac (string_of_list_ascii ("?"%char :: ws)) obj_mode = Return VNone.
Proof.
  intros Hne Hws.
  assert (Hrej : forall l,
            Fractions.rational_format l = None ->
            l <> [] -> l <> ["?"%char] ->
            frac (string_of_list_ascii l) obj_mode = Return VNone).
  { intros l Hl H1 H2. rewrite frac_rejected.
    - destruct (String.eqb_spec (string_of_list_ascii l) "") as [E|_].
      + elim H1. now apply string_of_list_ascii_inj.
      + destruct (String.eqb_spec (string_of_list_ascii l) "?") as [E|_];
          [|reflexivity].
        elim H2. now apply string_of_list_ascii_inj.
    - unfold Fractions.Fraction.
      now rewrite list_ascii_of_string_of_list_ascii, Hl. }
  destruct ws as [|w ws]; [now elim Hne|].
  assert (Hw : Fractions.is_space w = true) by now inversion Hws.
  split; [|split]; apply Hrej; try discriminate.
  - rewrite <- (app_nil_r (w :: ws)).
    now apply rational_format_spaces.
  - intros E. injection E as -> _. discriminate Hw.
  - now apply rational_format_spaces.
  - destruct ws; discriminate.
  - reflexivity.
Qed.

Lemma frac_sentinels_take_no_padding_space :
  frac " " false = Return VNone
  /\ frac " ?" false = Return VNone
  /\ frac "? " false = Return VNone.
Proof.
  apply (frac_sentinels_take_no_padding [" "%char] false).
  - discriminate.
  - repeat constructor.
Defined.

(* ================================================================= *)
(** * Further properties of [properties] *)

Section QueryErrors.

Import Pandas.

Lemma loc_returned (df sel : DataFrame) (ids : list Z) :
  loc df ids = Return sel ->
  incl ids (index df)
  /\ sel = {| index_name := index_name df; columns := columns df;
              rows := flat_map (rows_at df) ids |}.
Proof.
  unfold loc.
  destruct (filter (fun i => negb (mem_Z i (index df))) ids) as [|x l] eqn:E;
    [|discriminate].
  intros H. injection H as <-. split; [|reflexivity].
  intros i Hi. apply mem_Z_In.
  destruct (mem_Z i (index df)) eqn:Hm; [reflexivity|].
  assert (Hin : In i (filter (fun i => negb (mem_Z i (index df))) ids)).
  { apply filter_In. split; [assumption|]. now rewrite Hm. }
  rewrite E in Hin. destruct Hin.
Qed.

Lemma loc_raised (df : DataFrame) (ids : list Z) (e : exn) :
  loc df ids = Raise e -> exists missing, e = KeyError missing.
Proof.
  unfold loc. destruct (filter _ ids); [discriminate|].
  intros H. injection H as <-. eexists. reflexivity.
Qed.

Lemma getitem_raised (df : DataFrame) (key : string) (e : exn) :
  getitem df key = Raise e -> exists missing, e = KeyError missing.
Proof.
  unfold getitem. destruct (positions key (columns df)); [|discriminate].
  intros H. injection H as <-. eexists. reflexivity.
Qed.

Lemma getitems_raised (df : DataFrame) (key : list string) (e : exn) :
  getitems df key = Raise e -> exists missing, e = KeyError missing.
Proof.
  unfold getitems. destruct (filter _ key); [discriminate|].
  intros H. injection H as <-. eexists. reflexivity.
Qed.

Lemma getitems_returned (df a : DataFrame) (key : list string) :
  getitems df key = Return a -> length (rows a) = length (rows df).
Proof.
  unfold getitems. destruct (filter _ key); [|discriminate].
  intros H. injection H as <-. cbn [rows]. apply length_map.
Qed.

Lemma to_records_raised (df : DataFrame) (e : exn) :
  to_records df = Raise e -> e = ValueError.
Proof.
  unfold to_records. destruct (distinct _); [discriminate|].
  intros H. now injection H as <-.
Qed.

Lemma to_records_returned (df : DataFrame) (a : recarray) :
  to_records df = Return a -> length (records a) = length (rows df).
Proof.
  unfold to_records. destruct (distinct _); [|discriminate].
  intros H. injection H as <-. cbn [records]. apply length_map.
Qed.

Lemma drop_fields_length (a : recarray) (name : string) :
  length (records (Rfn.drop_fields a name)) = length (records a).
Proof. unfold Rfn.drop_fields. cbn [records]. apply length_map. Qed.

(** After a successful lookup the inverse indices are within the
    records, whatever the table. *)
Lemma take_selected (tbl sel a1 : DataFrame) (a2 : recarray)
    (pdgs : list Z) (props : list string) :
  loc tbl (Numpy.sorted_unique pdgs) = Return sel ->
  getitems sel props = Return a1 ->
  to_records a1 = Return a2 ->
  exists a3,
    Numpy.take (records (Rfn.drop_fields a2 "id"))
               (map (fun x => Numpy.index_of x (Numpy.sorted_unique pdgs)) pdgs)
    = Return a3.
Proof.
  intros Hloc Hget Hrec.
  apply loc_returned in Hloc as [Hin ->].
  apply getitems_returned in Hget. apply to_records_returned in Hrec.
  cbn [rows] in Hget.
  eexists. apply (take_in_range _ _ []).
  intros i Hi. apply in_map_iff in Hi as (c & <- & Hc).
  rewrite drop_fields_length, Hrec, Hget.
  eapply Nat.lt_le_trans.
  - apply index_of_lt. now apply sorted_unique_In.
  - apply flat_map_length_ge. intros x Hx. now apply rows_at_nonempty, Hin.
Qed.

Lemma getitems_unknown_all (df : DataFrame) (key : list string) (p : string) :
  In p key -> ~ In p (columns df) ->
  exists missing,
    getitems df key = Raise (KeyError (map LStr missing))
    /\ forall q, In q missing <-> In q key /\ ~ In q (columns df).
Proof.
  intros Hp Hn. unfold getitems.
  set (f := fun q => negb (mem_str q (columns df))).
  assert (Hf : forall q, f q = true <-> ~ In q (columns df)).
  { intros q. unfold f. rewrite negb_true_iff, <- mem_str_In.
    destruct (mem_str q (columns df)); intuition congruence. }
  assert (Hin : In p (filter f key)) by (apply filter_In; split; [|apply Hf]; assumption).
  destruct (filter f key) as [|x l] eqn:E; [destruct Hin|].
  exists (x :: l). split; [reflexivity|].
  intros q. rewrite <- E, filter_In, Hf. reflexivity.
Qed.

(** The run of a query on known codes one of whose properties the
    table does not have. *)
Lemma properties_run_unknown_prop
    (s : service) (pdgs : list Z) (props : list string) (p : string) :
  loaded (lookup s) ->
  incl pdgs (index (lookup s)) ->
  In p props -> ~ In p (columns (lookup s)) ->
  exists missing,
    properties pdgs props s
    = (Raise (KeyError (map LStr missing)),
       {| lookup := lookup s;
          warned := warned s ++
                    (if needs_warning (lookup s) pdgs props
                     then [pythia_message] else []);
          lookups := lookups s ++ [Numpy.sorted_unique pdgs;
                                   Numpy.sorted_unique pdgs] |})
    /\ forall q, In q missing <-> In q props /\ ~ In q (columns (lookup s)).
Proof.
  intros (Hid & Hnd & Hno & Hpy) Hcodes Hp Hn.
  set (u := Numpy.sorted_unique pdgs).
  assert (Hu : incl u (index (lookup s))).
  { intros c Hc. apply Hcodes. now apply sorted_unique_In. }
  destruct (getitems_unknown_all
              {| index_name := index_name (lookup s);
                 columns := columns (lookup s);
                 rows := flat_map (rows_at (lookup s)) u |} props p Hp Hn)
    as (missing & Hget & Hall).
  exists missing. split; [|exact Hall].
  unfold properties, Numpy.unique, needs_warning, selected. fold u.
  rewrite (run_lookup_loc _ _ _ Hu).
  rewrite (getitem_pythia _ _ Hnd Hpy), run_lift_return, any_flags.
  match goal with
  | |- context [if ?c then warn _ else ret tt] => destruct c
  end;
    [rewrite run_warn|rewrite run_ret];
    cbn [lookup warned lookups];
    rewrite run_lookup_loc by exact Hu; cbn [lookup warned lookups];
    rewrite Hget, run_lift_raise, <- app_assoc, ?app_nil_r; reflexivity.
Qed.

(** With distinct codes in the table, the rows of a query are the
    projected records of its codes. *)
Lemma properties_rows (s : service) (pdgs : list Z) (props : list string) :
  loaded (lookup s) ->
  NoDup (index (lookup s)) ->
  incl pdgs (index (lookup s)) ->
  incl props (columns (lookup s)) ->
  NoDup props ->
  fst (properties pdgs props s)
  = Return {| names := props;
              records := map (fun c => project (lookup s) props
                                         (cells_of (lookup s) c)) pdgs |}.
Proof.
  intros Hl Hnd Hcodes Hprops Hndp.
  rewrite (properties_run s pdgs props Hl Hcodes Hprops Hndp). cbn [fst].
  do 2 f_equal. apply map_ext_in. intros c Hc.
  destruct (selected_record (lookup s) pdgs c Hnd Hcodes Hc)
    as (cells & Hrec & Hsel).
  rewrite Hsel. unfold cells_of. now rewrite Hrec.
Qed.

Lemma increasing_bound (x : Z) (l : list Z) :
  increasing (x :: l) -> forall y, In y l -> x < y.
Proof.
  revert x. induction l as [|z l IH]; intros x H y Hy; [destruct Hy|].
  inversion H as [| |? ? ? Hxz Hl]; subst.
  destruct Hy as [->|Hy]; [assumption|].
  specialize (IH z Hl y Hy). lia.
Qed.

Lemma increasing_NoDup (l : list Z) : increasing l -> NoDup l.
Proof.
  induction l as [|x l IH]; intros H; [constructor|].
  constructor.
  - intros Hin. pose proof (increasing_bound x l H x Hin). lia.
  - apply IH. inversion H; subst; [constructor|assumption].
Qed.

Lemma warned_grew (w : list string) (b : bool) (msg : string) :
  w ++ (if b then [msg] else []) = w ++ [msg] <-> b = true.
Proof.
  destruct b; split; try reflexivity; try discriminate.
  intros E. apply app_inv_head in E. discriminate E.
Qed.

Lemma fallback_hit_app (tbl : DataFrame) (c1 c2 : list Z) :
  fallback_hit tbl (c1 ++ c2) <-> fallback_hit tbl c1 \/ fallback_hit tbl c2.
Proof.
  unfold fallback_hit. split.
  - intros (c & cells & Hc & H). apply in_app_iff in Hc as [Hc|Hc];
      [left|right]; now exists c, cells.
  - intros [(c & cells & Hc & H)|(c & cells & Hc & H)];
      exists c, cells; (split; [apply in_app_iff; auto|assumption]).
Qed.

End QueryErrors.

(** Whatever the table, the codes and the properties, a query either
    returns one row per queried code or raises [KeyError] or
    [ValueError]: the indexing by the inverse of [np.unique] never goes
    out of bounds, even on a table with repeated codes. *)
Theorem properties_outcomes
    (s : service) (codes : list Z) (props : list string) :
  match fst (properties codes props s) with
  | Return res => length (Pandas.records res) = length codes
  | Raise (KeyError _) => True
  | Raise ValueError => True
  | Raise _ => False
  end.
Proof.
  destruct (fst (properties codes props s)) as [res|e] eqn:E.
  - now apply properties_result_length in E.
  - revert E. unfold properties, Numpy.unique, bind, lookup_loc, lift.
    destruct (Pandas.loc (lookup s) _) as [sel|e0] eqn:Hloc;
      [|apply loc_raised in Hloc as [m ->]; intros E; now injection E as <-].
    destruct (Pandas.getitem sel "pythia") as [flags|e0] eqn:Hg;
      [|apply getitem_raised in Hg as [m ->]; intros E; now injection E as <-].
    match goal with
    | |- context [if ?c then warn _ else ret tt] => destruct c
    end; unfold warn, ret; cbn [lookup]; rewrite Hloc;
      (destruct (Pandas.getitems sel props) as [a1|e1] eqn:Hget;
         [|apply getitems_raised in Hget as [m ->];
           intros E; now injection E as <-]);
      (destruct (Pandas.to_records a1) as [a2|e2] eqn:Hrec;
         [|apply to_records_raised in Hrec as ->;
           intros E; now injection E as <-]);
      destruct (take_selected _ _ _ _ _ _ Hloc Hget Hrec) as [a3 ->];
      discriminate.
Qed.

(** On a loaded table a query returns if and only if every code is in
    the table, every property is a column and no property is requested
    twice. *)
Theorem properties_returns_iff
    (s : service) (codes : list Z) (props : list string) :
  loaded (lookup s) ->
  (exists res, fst (properties codes props s) = Return res)
  <-> incl codes (Pandas.index (lookup s))
      /\ incl props (Pandas.columns (lookup s))
      /\ NoDup props.
Proof.
  intros Hl. split.
  - intros [res Hres].
    assert (Hcodes : incl codes (Pandas.index (lookup s))).
    { intros c Hc.
      destruct (Pandas.mem_Z c (Pandas.index (lookup s))) eqn:E;
        [now apply mem_Z_In|].
      destruct (properties_run_unknown s codes props c Hc (not_in_index _ _ E))
        as (missing & Hrun & _).
      rewrite Hrun in Hres. discriminate Hres. }
    assert (Hprops : incl props (Pandas.columns (lookup s))).
    { intros p Hp.
      destruct (Pandas.mem_str p (Pandas.columns (lookup s))) eqn:E;
        [now apply mem_str_In|].
      destruct (properties_run_unknown_prop s codes props p Hl Hcodes Hp)
        as (missing & Hrun & _).
      - intros Hin. apply mem_str_In in Hin. congruence.
      - rewrite Hrun in Hres. discriminate Hres. }
    split; [assumption|]. split; [assumption|].
    destruct (Pandas.distinct props) eqn:E; [now apply distinct_NoDup|].
    rewrite (properties_run_repeated s codes props Hl Hcodes Hprops
               (repeated_props _ E)) in Hres.
    discriminate Hres.
  - intros (Hcodes & Hprops & Hndp).
    rewrite (properties_run s codes props Hl Hcodes Hprops Hndp).
    eexists. reflexivity.
Qed.

Lemma properties_returns_iff_sample :
  (exists res,
     fst (properties [11; 22; 11] ["name"; "charge"] (fresh sample_table))
     = Return res)
  <-> incl [11; 22; 11] (Pandas.index sample_table)
      /\ incl ["name"; "charge"] (Pandas.columns sample_table)
      /\ NoDup ["name"; "charge"].
Proof.
  apply (properties_returns_iff (fresh sample_table)
           [11; 22; 11] ["name"; "charge"]).
  exact sample_table_loaded.
Defined.

(** A property that is not a column of the table makes a query on known
    codes raise [KeyError] with exactly the requested properties the
    table lacks; the error comes after both lookups and after the
    fallback warning, which is still issued when it applies. *)
Theorem properties_unknown_property
    (s : service) (codes : list Z) (props : list string) (p : string) :
  loaded (lookup s) ->
  incl codes (Pandas.index (lookup s)) ->
  In p props ->
  ~ In p (Pandas.columns (lookup s)) ->
  exists missing,
    fst (properties codes props s) = Raise (KeyError (map LStr missing))
    /\ (forall q, In q missing <->
                  In q props /\ ~ In q (Pandas.columns (lookup s)))
    /\ warned (snd (properties codes props s))
       = warned s ++ (if needs_warning (lookup s) codes props
                      then [pythia_message] else [])
    /\ lookups (snd (properties codes props s))
       = lookups s ++ [Numpy.sorted_unique codes; Numpy.sorted_unique codes].
Proof.
  intros Hl Hcodes Hp Hn.
  destruct (properties_run_unknown_prop s codes props p Hl Hcodes Hp Hn)
    as (missing & Hrun & Hall).
  exists missing. rewrite Hrun. cbn [fst snd warned lookups].
  split; [reflexivity|]. split; [exact Hall|]. split; reflexivity.
Qed.

Lemma properties_unknown_property_sample :
  exists missing,
    fst (properties [9900041] ["name"; "spin"] (fresh sample_table))
    = Raise (KeyError (map LStr missing))
    /\ (forall q, In q missing <->
                  In q ["name"; "spin"]
                  /\ ~ In q (Pandas.columns (lookup (fresh sample_table))))
    /\ warned (snd (properties [9900041] ["name"; "spin"] (fresh sample_table)))
       = [] ++ [pythia_message]
    /\ lookups (snd (properties [9900041] ["name"; "spin"] (fresh sample_table)))
       = [] ++ [[9900041]; [9900041]].
Proof.
  apply (properties_unknown_property (fresh sample_table)
           [9900041] ["name"; "spin"] "spin").
  - exact sample_table_loaded.
  - apply incl_index. reflexivity.
  - right. left. reflexivity.
  - intros H. apply mem_str_In in H. discriminate H.
Defined.

(** The PDG code itself cannot be asked for: ["id"] is the index of the
    table and not a column, so a query that requests it on known codes
    raises [KeyError] naming ["id"]. *)
Theorem properties_id_is_no_property
    (s : service) (codes : list Z) (props : list string) :
  loaded (lookup s) ->
  incl codes (Pandas.index (lookup s)) ->
  In "id" props ->
  exists missing,
    fst (properties codes props s) = Raise (KeyError (map LStr missing))
    /\ In "id" missing.
Proof.
  intros Hl Hcodes Hp.
  assert (Hn : ~ In "id" (Pandas.columns (lookup s))) by apply Hl.
  destruct (properties_run_unknown_prop s codes props "id" Hl Hcodes Hp Hn)
    as (missing & Hrun & Hall).
  exists missing. rewrite Hrun. split; [reflexivity|].
  apply Hall. now split.
Qed.

Lemma properties_id_is_no_property_sample :
  exists missing,
    fst (properties [22] ["id"; "name"] (fresh sample_table))
    = Raise (KeyError (map LStr missing))
    /\ In "id" missing.
Proof.
  apply (properties_id_is_no_property (fresh sample_table) [22] ["id"; "name"]).
  - exact sample_table_loaded.
  - apply incl_index. reflexivity.
  - left. reflexivity.
Defined.

(** With distinct codes in the table, querying two sequences of codes
    one after the other in a single call gives the rows of the first
    query followed by the rows of the second. *)
Theorem properties_of_concatenation
    (s : service) (codes1 codes2 : list Z) (props : list string) :
  loaded (lookup s) ->
  NoDup (Pandas.index (lookup s)) ->
  incl (codes1 ++ codes2) (Pandas.index (lookup s)) ->
  incl props (Pandas.columns (lookup s)) ->
  NoDup props ->
  exists res1 res2 res,
    fst (properties codes1 props s) = Return res1
    /\ fst (properties codes2 props s) = Return res2
    /\ fst (properties (codes1 ++ codes2) props s) = Return res
    /\ Pandas.records res = Pandas.records res1 ++ Pandas.records res2.
Proof.
  intros Hl Hnd Hcodes Hprops Hndp.
  assert (H1 : incl codes1 (Pandas.index (lookup s)))
    by (intros c Hc; apply Hcodes, in_app_iff; now left).
  assert (H2 : incl codes2 (Pandas.index (lookup s)))
    by (intros c Hc; apply Hcodes, in_app_iff; now right).
  rewrite !properties_rows by assumption.
  do 3 eexists. repeat (split; [reflexivity|]).
  cbn [Pandas.records]. apply map_app.
Qed.

Lemma properties_of_concatenation_sample :
  exists res1 res2 res,
    fst (properties [2212; 22] ["name"; "mass"] (fresh sample_table)) = Return res1
    /\ fst (properties [22; 11; 22] ["name"; "mass"] (fresh sample_table))
       = Return res2
    /\ fst (properties ([2212; 22] ++ [22; 11; 22]) ["name"; "mass"]
              (fresh sample_table)) = Return res
    /\ Pandas.records res = Pandas.records res1 ++ Pandas.records res2.
Proof.
  apply (properties_of_concatenation (fresh sample_table)
           [2212; 22] [22; 11; 22] ["name"; "mass"]).
  - exact sample_table_loaded.
  - exact sample_index_NoDup.
  - apply incl_index. reflexivity.
  - apply incl_columns. reflexivity.
  - apply distinct_NoDup. reflexivity.
Defined.

(** With distinct codes in the table, a column of the result does not
    depend on the other properties requested with it: column [j] of the
    query for [props] is, row by row, the query for [props[j]] alone. *)
Theorem properties_column_alone
    (s : service) (codes : list Z) (props : list string) (j : nat) (p : string) :
  loaded (lookup s) ->
  NoDup (Pandas.index (lookup s)) ->
  incl codes (Pandas.index (lookup s)) ->
  incl props (Pandas.columns (lookup s)) ->
  NoDup props ->
  nth_error props j = Some p ->
  exists res resp,
    fst (properties codes props s) = Return res
    /\ fst (properties codes [p] s) = Return resp
    /\ forall i row,
         nth_error (Pandas.records res) i = Some row ->
         exists v,
           nth_error row j = Some v
           /\ nth_error (Pandas.records resp) i = Some [v].
Proof.
  intros Hl Hnd Hcodes Hprops Hndp Hj.
  assert (Hp : incl [p] (Pandas.columns (lookup s))).
  { intros q [<-|[]]. eapply Hprops, nth_error_In, Hj. }
  assert (Hndp1 : NoDup [p]) by (repeat constructor; intros []).
  rewrite !properties_rows by assumption.
  do 2 eexists. split; [reflexivity|]. split; [reflexivity|].
  cbn [Pandas.records]. intros i row Hi.
  rewrite nth_error_map in Hi.
  destruct (nth_error codes i) as [c|] eqn:Hc; [|discriminate].
  cbn [option_map] in Hi. injection Hi as <-.
  exists (field (lookup s) (cells_of (lookup s) c) p). split.
  - unfold project. now rewrite nth_error_map, Hj.
  - now rewrite nth_error_map, Hc.
Qed.

Lemma properties_column_alone_sample :
  exists res resp,
    fst (properties [11; 2212] ["name"; "mass"; "quarks"] (fresh sample_table))
    = Return res
    /\ fst (properties [11; 2212] ["quarks"] (fresh sample_table)) = Return resp
    /\ forall i row,
         nth_error (Pandas.records res) i = Some row ->
         exists v,
           nth_error row 2 = Some v
           /\ nth_error (Pandas.records resp) i = Some [v].
Proof.
  apply (properties_column_alone (fresh sample_table)
           [11; 2212] ["name"; "mass"; "quarks"] 2 "quarks").
  - exact sample_table_loaded.
  - exact sample_index_NoDup.
  - apply incl_index. reflexivity.
  - apply incl_columns. reflexivity.
  - apply distinct_NoDup. reflexivity.
  - reflexivity.
Defined.

(** A query for no code at all returns the empty result with the
    requested columns; it warns nothing, whatever the properties, and
    still makes its two lookups, each of no label. *)
Theorem properties_of_no_code (s : service) (props : list string) :
  loaded (lookup s) ->
  incl props (Pandas.columns (lookup s)) ->
  NoDup props ->
  properties [] props s
  = (Return {| Pandas.names := props; Pandas.records := [] |},
     {| lookup := lookup s; warned := warned s;
        lookups := lookups s ++ [[]; []] |}).
Proof.
  intros Hl Hprops Hndp.
  rewrite (properties_run s [] props Hl (incl_nil_l _) Hprops Hndp).
  cbn [map Numpy.sorted_unique fold_right].
  unfold needs_warning, selected. cbn [Numpy.sorted_unique fold_right flat_map existsb andb].
  now rewrite app_nil_r.
Qed.

Lemma properties_of_no_code_sample :
  properties [] ["name"; "quarks"] (fresh sample_table)
  = (Return {| Pandas.names := ["name"; "quarks"]; Pandas.records := [] |},
     {| lookup := sample_table; warned := [];
        lookups := [] ++ [[]; []] |}).
Proof.
  apply (properties_of_no_code (fresh sample_table) ["name"; "quarks"]).
  - exact sample_table_loaded.
  - apply incl_columns. reflexivity.
  - apply distinct_NoDup. reflexivity.
Defined.

(** A query for two sequences of codes at once warns exactly when the
    query for one of them would warn. *)
Theorem properties_warning_of_concatenation
    (s : service) (codes1 codes2 : list Z) (props : list string) :
  loaded (lookup s) ->
  incl (codes1 ++ codes2) (Pandas.index (lookup s)) ->
  incl props (Pandas.columns (lookup s)) ->
  NoDup props ->
  warned (snd (properties (codes1 ++ codes2) props s))
  = warned s ++ [pythia_message]
  <-> (warned (snd (properties codes1 props s)) = warned s ++ [pythia_message]
       \/ warned (snd (properties codes2 props s)) = warned s ++ [pythia_message]).
Proof.
  intros Hl Hcodes Hprops Hndp.
  assert (H1 : incl codes1 (Pandas.index (lookup s)))
    by (intros c Hc; apply Hcodes, in_app_iff; now left).
  assert (H2 : incl codes2 (Pandas.index (lookup s)))
    by (intros c Hc; apply Hcodes, in_app_iff; now right).
  rewrite !properties_run by assumption. cbn [snd warned].
  rewrite !warned_grew, !needs_warning_iff, fallback_hit_app. tauto.
Qed.

Lemma properties_warning_of_concatenation_sample :
  warned (snd (properties ([22; 11] ++ [9900041]) ["quarks"] (fresh sample_table)))
  = [] ++ [pythia_message]
  <-> (warned (snd (properties [22; 11] ["quarks"] (fresh sample_table)))
       = [] ++ [pythia_message]
       \/ warned (snd (properties [9900041] ["quarks"] (fresh sample_table)))
          = [] ++ [pythia_message]).
Proof.
  apply (properties_warning_of_concatenation (fresh sample_table)
           [22; 11] [9900041] ["quarks"]).
  - exact sample_table_loaded.
  - apply incl_index. reflexivity.
  - apply incl_columns. reflexivity.
  - apply distinct_NoDup. reflexivity.
Defined.

(** Each of the two lookups of a query on known codes takes every
    queried code once, in increasing order, however often the code is
    repeated in the query. *)
Theorem properties_lookups_are_distinct_codes
    (s : service) (codes : list Z) (props : list string) :
  loaded (lookup s) ->
  incl codes (Pandas.index (lookup s)) ->
  exists pass,
    lookups (snd (properties codes props s)) = lookups s ++ [pass; pass]
    /\ NoDup pass
    /\ increasing pass
    /\ (forall c, In c pass <-> In c codes)
    /\ (length pass <= length codes)%nat.
Proof.
  intros Hl Hcodes. exists (Numpy.sorted_unique codes).
  split; [now apply properties_lookups_known|].
  pose proof (sorted_unique_increasing codes) as Hinc.
  split; [now apply increasing_NoDup|]. split; [assumption|].
  split; [intros c; apply sorted_unique_In|].
  apply NoDup_incl_length; [now apply increasing_NoDup|].
  intros c Hc. now apply sorted_unique_In.
Qed.

Lemma properties_lookups_are_distinct_codes_sample :
  exists pass,
    lookups (snd (properties [22; 22; 2212; 22; 11; 22] ["name"]
                    (fresh sample_table))) = [] ++ [pass; pass]
    /\ NoDup pass
    /\ increasing pass
    /\ (forall c, In c pass <-> In c [22; 22; 2212; 22; 11; 22])
    /\ (length pass <= 6)%nat.
Proof.
  apply (properties_lookups_are_distinct_codes (fresh sample_table)
           [22; 22; 2212; 22; 11; 22] ["name"]).
  - exact sample_table_loaded.
  - apply incl_index. reflexivity.
Defined.
